(** * VoiceBill PRO: the voice-command parser of [productService.ts]

    A shallow embedding of [ProductService.parseVoiceCommand] and of the
    functions it calls ([getCommandKeywords], [findProductByName],
    [getProductNameInLanguage], [normalize], [tokenSet], [jaccard]), followed
    by the properties of the parser that the specification states.

    Conventions.
    - A JavaScript string is the list of its UTF-16 code units ([JS.str]).
      Literals of the source are written as they are in the source, as UTF-8
      text, and turned into code units by [JS.js].
    - The built-ins whose result depends on the Unicode character database
      ([toLowerCase], [toUpperCase], the classes [\p{P}] and [\p{S}], the
      case folding of the [i] flag) are fields of a record [Unicode]; the
      parser takes the record as its first argument.  [basicLatin] is the
      instance used to run the parser on concrete transcripts.
    - A JavaScript number that the parser computes is an exact rational or a
      natural number: the amounts are decimal literals with at most two
      fractional digits, the scores are quotients of two set sizes.
    - The service's product list ([this.products]) and the ambient
      [i18n.language] are explicit arguments. *)

From Stdlib Require Import List NArith ZArith QArith Qround String Ascii Bool Lia Lqa.
Import ListNotations.
Local Open Scope N_scope.

(* ------------------------------------------------------------------ *)
(** ** JavaScript strings *)

Module JS.

Definition str := list N.

(** UTF-8 text of the development to UTF-16 code units. *)
Fixpoint bytes_of (s : string) : list N :=
  match s with
  | EmptyString => []
  | String a r => N_of_ascii a :: bytes_of r
  end.

Fixpoint utf8_scan (need : nat) (acc : N) (bs : list N) : list N :=
  match bs with
  | [] => []
  | b :: r =>
      match need with
      | O =>
          if b <? 0x80 then b :: utf8_scan 0 0 r
          else if b <? 0xE0 then utf8_scan 1 (b mod 32) r
          else if b <? 0xF0 then utf8_scan 2 (b mod 16) r
          else utf8_scan 3 (b mod 8) r
      | S O => (acc * 64 + b mod 64) :: utf8_scan 0 0 r
      | S n => utf8_scan n (acc * 64 + b mod 64) r
      end
  end.

Definition utf16_of_point (cp : N) : str :=
  if cp <? 0x10000 then [cp]
  else [0xD800 + (cp - 0x10000) / 0x400; 0xDC00 + (cp - 0x10000) mod 0x400].

Definition js (s : string) : str :=
  flat_map utf16_of_point (utf8_scan 0 0 (bytes_of s)).

(** [===] on strings. *)
Fixpoint eqb (a b : str) : bool :=
  match a, b with
  | [], [] => true
  | x :: a', y :: b' => (x =? y) && eqb a' b'
  | _, _ => false
  end.

(** A string is falsy exactly when it is empty. *)
Definition truthy (s : str) : bool :=
  match s with [] => false | _ :: _ => true end.

Fixpoint startsWith (p s : str) : bool :=
  match p, s with
  | [], _ => true
  | x :: p', y :: s' => (x =? y) && startsWith p' s'
  | _ :: _, [] => false
  end.

(** [s.includes(p)] *)
Fixpoint includes (s p : str) : bool :=
  startsWith p s ||
  match s with
  | [] => false
  | _ :: s' => includes s' p
  end.

(** White space and line terminators: the class [\s], also what [trim]
    removes. *)
Definition isWhiteSpace (c : N) : bool :=
  ((9 <=? c) && (c <=? 13)) || (c =? 32) || (c =? 0xA0) || (c =? 0x1680) ||
  ((0x2000 <=? c) && (c <=? 0x200A)) || (c =? 0x2028) || (c =? 0x2029) ||
  (c =? 0x202F) || (c =? 0x205F) || (c =? 0x3000) || (c =? 0xFEFF).

(** The class [\d]. *)
Definition isDigit (c : N) : bool := (48 <=? c) && (c <=? 57).

Fixpoint dropWhile (f : N -> bool) (s : str) : str :=
  match s with
  | [] => []
  | c :: s' => if f c then dropWhile f s' else s
  end.

Fixpoint takeWhile (f : N -> bool) (s : str) : str :=
  match s with
  | [] => []
  | c :: s' => if f c then c :: takeWhile f s' else []
  end.

Definition trim (s : str) : str :=
  rev (dropWhile isWhiteSpace (rev (dropWhile isWhiteSpace s))).

(** [s.split('-')[0]] *)
Definition beforeDash (s : str) : str :=
  takeWhile (fun c => negb (c =? 45)) s.

(** [s.split(' ')]: the pieces between single spaces. *)
Fixpoint splitSpace_from (cur : str) (s : str) : list str :=
  match s with
  | [] => [rev cur]
  | c :: s' =>
      if c =? 32 then rev cur :: splitSpace_from [] s'
      else splitSpace_from (c :: cur) s'
  end.

Definition splitSpace (s : str) : list str := splitSpace_from [] s.

(** [s.replace(/\s+/g, r)]: every maximal run of white space becomes [r]. *)
Fixpoint replaceSpaceRuns_from (inRun : bool) (r : N) (s : str) : str :=
  match s with
  | [] => []
  | c :: s' =>
      if isWhiteSpace c
      then (if inRun then [] else [r]) ++ replaceSpaceRuns_from true r s'
      else c :: replaceSpaceRuns_from false r s'
  end.

Definition replaceSpaceRuns (r : N) (s : str) : str :=
  replaceSpaceRuns_from false r s.

(** [s.replace(/\d+/g, '')] *)
Definition removeDigits (s : str) : str :=
  filter (fun c => negb (isDigit c)) s.

(** [s.replace(',', '.')]: the first comma only. *)
Fixpoint replaceFirstComma (s : str) : str :=
  match s with
  | [] => []
  | c :: s' => if c =? 44 then 46 :: s' else c :: replaceFirstComma s'
  end.

(** The decimal value of a run of digits ([parseInt] on such a run). *)
Definition digitsValue (ds : str) : N :=
  fold_left (fun acc c => acc * 10 + (c - 48)) ds 0.

(** [parseFloat] on a decimal literal [digits] or [digits.digits]; [None] is
    [NaN].  Signs, exponents and leading white space do not occur in what the
    parser passes to it. *)
Definition parseFloat (s : str) : option Q :=
  let ip := takeWhile isDigit s in
  let rest := dropWhile isDigit s in
  let fp := match rest with
            | c :: r => if c =? 46 then takeWhile isDigit r else []
            | [] => []
            end in
  match ip, fp with
  | [], [] => None
  | _, _ =>
      Some (Qred (Z.of_N (digitsValue (ip ++ fp))
                  # Z.to_pos (10 ^ Z.of_nat (List.length fp))))
  end.

(** [Math.round]: the nearest integer, halves upwards. *)
Definition round (x : Q) : Z := Qfloor (x + (1 # 2)).

Definition Qlt_bool (a b : Q) : bool := negb (Qle_bool b a).

End JS.

(* ------------------------------------------------------------------ *)
(** ** The built-ins that depend on the Unicode character database *)

Record Unicode := {
  (** [String.prototype.toLowerCase] *)
  toLowerCase : JS.str -> JS.str;
  (** [String.prototype.toUpperCase] *)
  toUpperCase : JS.str -> JS.str;
  (** membership of a code point in [\p{P}] or [\p{S}] *)
  isPunctOrSymbol : N -> bool;
  (** the case folding of a code unit under the [i] flag (without [u]) *)
  canonicalize : N -> N
}.

Module BasicLatin.

Definition lowerUnit (c : N) : N :=
  if (65 <=? c) && (c <=? 90) then c + 32 else c.

Definition upperUnit (c : N) : N :=
  if (97 <=? c) && (c <=? 122) then c - 32 else c.

(** Punctuation and symbols of Basic Latin, and the rupee sign U+20B9. *)
Definition punctOrSymbol (c : N) : bool :=
  ((33 <=? c) && (c <=? 47)) || ((58 <=? c) && (c <=? 64)) ||
  ((91 <=? c) && (c <=? 96)) || ((123 <=? c) && (c <=? 126)) ||
  (c =? 0x20B9).

End BasicLatin.

(** The built-ins on text made of Basic Latin, the rupee sign, white space
    and the caseless scripts of the keyword tables (Devanagari, Kannada,
    Malayalam, Tamil): letters A-Z and a-z change case, nothing else does. *)
Definition basicLatin : Unicode := {|
  toLowerCase := map BasicLatin.lowerUnit;
  toUpperCase := map BasicLatin.upperUnit;
  isPunctOrSymbol := BasicLatin.punctOrSymbol;
  canonicalize := BasicLatin.upperUnit
|}.

(* ------------------------------------------------------------------ *)
(** ** Data model *)

(** [interface Product] *)
Record Product := {
  id : JS.str;
  name : JS.str;
  name_en : JS.str;
  name_kn : option JS.str;
  name_ml : option JS.str;
  name_ta : option JS.str;
  name_hi : option JS.str;
  price : Q;
  category : JS.str;
  stock : N;
  barcode : option JS.str;
  description : option JS.str
}.

(** The [type] field of the object returned by [parseVoiceCommand]. *)
Inductive ResultType :=
| T_add | T_remove | T_clear | T_checkout | T_pay_method | T_cash_amount
| T_pay_now | T_print_receipt | T_unknown.

Inductive PayMethod := M_cash | M_card | M_digital.

(** The object returned by [parseVoiceCommand]; an absent field is [None]. *)
Record CommandResult := {
  type : ResultType;
  product : option Product;
  quantity : option N;
  action : option string;
  method : option PayMethod;
  amount : option Q
}.

(** How a call ends: it returns a value or it throws. *)
Inductive JSError := TypeError.

Inductive Completion (A : Type) :=
| Return (a : A)
| Throw (e : JSError).
Arguments Return {A} a.
Arguments Throw {A} e.

(** The value of [keywords.<category>], a list of literals, and of
    [keywords.numbers], whose entries are enumerated in insertion order. *)
Record Keywords := {
  clear : list JS.str;
  checkout : list JS.str;
  payNow : list JS.str;
  cash : list JS.str;
  card : list JS.str;
  digital : list JS.str;
  received : list JS.str;
  remove : list JS.str;
  removeLast : list JS.str;
  add : list JS.str;
  numbers : list (JS.str * N)
}.

(* ------------------------------------------------------------------ *)
(** ** Text helpers of the service *)

Section Service.

Variable U : Unicode.

(** The ambient [i18n.language]; [None] when it is not set. *)
Variable i18n_language : option JS.str.

(** [this.products] *)
Variable products : list Product.

(** [.replace(/[\p{P}\p{S}]/gu, ' ')].  With the [u] flag a surrogate pair
    is one character; a lone surrogate is in neither class. *)
Definition isHighSurrogate (c : N) : bool := (0xD800 <=? c) && (c <=? 0xDBFF).
Definition isLowSurrogate (c : N) : bool := (0xDC00 <=? c) && (c <=? 0xDFFF).
Definition pairPoint (h l : N) : N :=
  0x10000 + (h - 0xD800) * 0x400 + (l - 0xDC00).

Definition blankUnit (c : N) : N :=
  if isPunctOrSymbol U c then 32 else c.

Fixpoint blankPunct_from (pending : option N) (s : JS.str) : JS.str :=
  match s with
  | [] => match pending with Some h => [h] | None => [] end
  | c :: s' =>
      match pending with
      | Some h =>
          if isLowSurrogate c
          then (if isPunctOrSymbol U (pairPoint h c) then [32] else [h; c])
               ++ blankPunct_from None s'
          else if isHighSurrogate c then h :: blankPunct_from (Some c) s'
          else h :: blankUnit c :: blankPunct_from None s'
      | None =>
          if isHighSurrogate c then blankPunct_from (Some c) s'
          else if isLowSurrogate c then c :: blankPunct_from None s'
          else blankUnit c :: blankPunct_from None s'
      end
  end.

Definition blankPunct (s : JS.str) : JS.str := blankPunct_from None s.

(** [private normalize(text)] *)
Definition normalize (text : JS.str) : JS.str :=
  JS.trim (JS.replaceSpaceRuns 32 (blankPunct (toLowerCase U text))).

(** A [Set<string>] is the list of its members in insertion order. *)
Definition has (s : list JS.str) (x : JS.str) : bool := existsb (JS.eqb x) s.

Definition setAdd (s : list JS.str) (x : JS.str) : list JS.str :=
  if has s x then s else s ++ [x].

Definition newSet (l : list JS.str) : list JS.str := fold_left setAdd l [].

(** [private tokenSet(str)] *)
Definition tokenSet (s : JS.str) : list JS.str :=
  newSet (filter JS.truthy (JS.splitSpace (normalize s))).

(** [private jaccard(a, b)].  The quotient of the two sizes is kept as a
    rational; between quotients of sizes below 2^26, and against 0.4, the
    doubles of the source compare as the rationals do. *)
Definition jaccard (a b : list JS.str) : Q :=
  let inter := newSet (filter (fun x => has b x) a) in
  let union := newSet (a ++ b) in
  if (List.length union =? 0)%nat then 0%Q
  else (Z.of_nat (List.length inter) # Pos.of_nat (List.length union)).

(** [language || i18n.language || 'en'] *)
Definition orString (a : option JS.str) (b : JS.str) : JS.str :=
  match a with
  | Some s => if JS.truthy s then s else b
  | None => b
  end.

Definition activeLanguage (language : option JS.str) : JS.str :=
  orString language (orString i18n_language (JS.js "en")).

(** [product[`name_${lang}`]]: the five name fields are the only properties
    whose key starts with [name_]. *)
Definition nameField (p : Product) (lang : JS.str) : option JS.str :=
  if JS.eqb lang (JS.js "en") then Some (name_en p)
  else if JS.eqb lang (JS.js "kn") then name_kn p
  else if JS.eqb lang (JS.js "ml") then name_ml p
  else if JS.eqb lang (JS.js "ta") then name_ta p
  else if JS.eqb lang (JS.js "hi") then name_hi p
  else None.

(** [getProductNameInLanguage(product, language)] *)
Definition getProductNameInLanguage (p : Product) (language : option JS.str)
  : JS.str :=
  let lang := JS.beforeDash (activeLanguage language) in
  orString (nameField p lang) (orString (Some (name_en p)) (name p)).

(** [[p.name_en, p.name_kn, p.name_ml, p.name_ta, p.name_hi].filter(Boolean)] *)
Definition allNames (p : Product) : list JS.str :=
  flat_map (fun o => match o with
                     | Some n => if JS.truthy n then [n] else []
                     | None => []
                     end)
           [Some (name_en p); name_kn p; name_ml p; name_ta p; name_hi p].

(** One turn of the loops that keep the best score:
    [if (!best || score > best.score) best = { p, score }]. *)
Definition keepBest (best : option (Product * Q)) (p : Product) (score : Q)
  : option (Product * Q) :=
  match best with
  | None => Some (p, score)
  | Some (_, bs) => if JS.Qlt_bool bs score then Some (p, score) else best
  end.

(** [if (best && best.score >= 0.4) return best.p] *)
Definition threshold : Q := 4 # 10.

Definition accepted (best : option (Product * Q)) : option Product :=
  match best with
  | Some (p, s) => if Qle_bool threshold s then Some p else None
  | None => None
  end.

(** Stage 5 of [findProductByName]: the loop over the products with the
    name of the active language. *)
Definition scoreInLanguage (qTokens : list JS.str) (lang : JS.str)
  (p : Product) : Q :=
  jaccard qTokens (tokenSet (getProductNameInLanguage p (Some lang))).

Definition bestInLanguage (qTokens : list JS.str) (lang : JS.str)
  : option (Product * Q) :=
  fold_left (fun best p => keepBest best p (scoreInLanguage qTokens lang p))
            products None.

(** Stage 6: the loops over the products and over every name of each. *)
Definition bestAcrossLanguages (qTokens : list JS.str)
  : option (Product * Q) :=
  fold_left
    (fun best p =>
       fold_left (fun best n => keepBest best p (jaccard qTokens (tokenSet n)))
                 (allNames p) best)
    products None.

(** The predicates of the four [find] stages. *)
Definition barcodeMatches (maybeBarcode : JS.str) (p : Product) : bool :=
  match barcode p with
  | Some b =>
      JS.truthy b &&
      (JS.eqb (toUpperCase U b) maybeBarcode ||
       JS.includes (toUpperCase U b) maybeBarcode)
  | None => false
  end.

Definition exactMatches (lang normalizedName : JS.str) (p : Product) : bool :=
  JS.eqb (normalize (getProductNameInLanguage p (Some lang))) normalizedName.

Definition containsMatches (lang normalizedName : JS.str) (p : Product)
  : bool :=
  let normalizedProductName :=
    normalize (getProductNameInLanguage p (Some lang)) in
  JS.includes normalizedProductName normalizedName ||
  JS.includes normalizedName normalizedProductName.

Definition anyNameMatches (normalizedName : JS.str) (p : Product) : bool :=
  existsb (fun n =>
             let normalized := normalize n in
             JS.eqb normalized normalizedName ||
             JS.includes normalized normalizedName ||
             JS.includes normalizedName normalized)
          (allNames p).

(** [findProductByName(name, language)] *)
Definition findProductByName (name : JS.str) (language : option JS.str)
  : option Product :=
  if negb (JS.truthy name) || (List.length (JS.trim name) =? 0)%nat then None
  else
    let lang := JS.beforeDash (activeLanguage language) in
    let normalizedName := normalize name in
    if negb (JS.truthy normalizedName) ||
       (List.length normalizedName <? 2)%nat then None
    else if (List.length products =? 0)%nat then None
    else
      let maybeBarcode := toUpperCase U (JS.replaceSpaceRuns 95 name) in
      match find (barcodeMatches maybeBarcode) products with
      | Some p => Some p
      | None =>
      match find (exactMatches lang normalizedName) products with
      | Some p => Some p
      | None =>
      match find (containsMatches lang normalizedName) products with
      | Some p => Some p
      | None =>
      match find (anyNameMatches normalizedName) products with
      | Some p => Some p
      | None =>
          let qTokens := tokenSet normalizedName in
          match accepted (bestInLanguage qTokens lang) with
          | Some p => Some p
          | None => accepted (bestAcrossLanguages qTokens)
          end
      end end end end.

(* ------------------------------------------------------------------ *)
(** ** The keyword tables of [getCommandKeywords] *)

Definition keywords_en : Keywords := {|
  clear :=
    [JS.js "clear cart"; JS.js "empty cart"; JS.js "start over";
     JS.js "clear"];
  checkout :=
    [JS.js "checkout"; JS.js "check out"; JS.js "proceed to payment";
     JS.js "go to payment"; JS.js "open payment"; JS.js "bill"];
  payNow :=
    [JS.js "pay now"; JS.js "confirm payment"; JS.js "complete payment";
     JS.js "pay"; JS.js "confirm"];
  cash :=
    [JS.js "pay with cash"; JS.js "cash payment"; JS.js "cash";
     JS.js "cash mode"];
  card :=
    [JS.js "pay with card"; JS.js "card payment"; JS.js "credit card";
     JS.js "debit card"; JS.js "card"];
  digital :=
    [JS.js "digital payment"; JS.js "upi"; JS.js "wallet";
     JS.js "digital"; JS.js "phonepe"; JS.js "gpay"];
  received :=
    [JS.js "amount received"; JS.js "cash received"; JS.js "received";
     JS.js "cash"; JS.js "amount"];
  remove := [JS.js "remove"; JS.js "delete"; JS.js "take out"];
  removeLast :=
    [JS.js "remove last"; JS.js "delete last"; JS.js "undo last";
     JS.js "undo"];
  add := [JS.js "add"; JS.js "get"; JS.js "buy"; JS.js "take"];
  numbers :=
    [(JS.js "one", 1); (JS.js "two", 2); (JS.js "three", 3);
     (JS.js "four", 4); (JS.js "five", 5); (JS.js "six", 6);
     (JS.js "seven", 7); (JS.js "eight", 8); (JS.js "nine", 9);
     (JS.js "ten", 10)]
|}.

Definition keywords_hi : Keywords := {|
  clear :=
    [JS.js "कार्ट साफ करो"; JS.js "खाली करो"; JS.js "साफ करो";
     JS.js "हटाओ"];
  checkout :=
    [JS.js "चेकआउट"; JS.js "बिल"; JS.js "भुगतान";
     JS.js "पेमेंट"; JS.js "बिल बनाओ"];
  payNow :=
    [JS.js "अभी भुगतान करो"; JS.js "भुगतान करो"; JS.js "पे करो";
     JS.js "कन्फर्म करो"];
  cash := [JS.js "नकद"; JS.js "कैश"; JS.js "नकद भुगतान"; JS.js "कैश पेमेंट"];
  card := [JS.js "कार्ड"; JS.js "कार्ड पेमेंट"; JS.js "क्रेडिट कार्ड"];
  digital :=
    [JS.js "डिजिटल"; JS.js "यूपीआई"; JS.js "वॉलेट";
     JS.js "फोनपे"; JS.js "जीपे"];
  received :=
    [JS.js "मिला"; JS.js "प्राप्त"; JS.js "रुपए मिले";
     JS.js "कैश मिला"; JS.js "राशि"];
  remove := [JS.js "हटाओ"; JS.js "निकालो"; JS.js "डिलीट करो"];
  removeLast := [JS.js "आखिरी हटाओ"; JS.js "पिछला हटाओ"; JS.js "अनडू"];
  add := [JS.js "जोड़ो"; JS.js "लो"; JS.js "खरीदो"; JS.js "दो"];
  numbers :=
    [(JS.js "एक", 1); (JS.js "दो", 2); (JS.js "तीन", 3);
     (JS.js "चार", 4); (JS.js "पांच", 5); (JS.js "छह", 6);
     (JS.js "सात", 7); (JS.js "आठ", 8); (JS.js "नौ", 9);
     (JS.js "दस", 10)]
|}.

Definition keywords_kn : Keywords := {|
  clear :=
    [JS.js "ಕಾರ್ಟ್ ಸ್ಪಷ್ಟ"; JS.js "ಖಾಲಿ ಮಾಡಿ"; JS.js "ಸ್ಪಷ್ಟ";
     JS.js "ತೆಗೆದುಹಾಕಿ"];
  checkout :=
    [JS.js "ಚೆಕ್ಔಟ್"; JS.js "ಬಿಲ್"; JS.js "ಪಾವತಿ";
     JS.js "ಪೇಮೆಂಟ್"; JS.js "ಬಿಲ್ ಮಾಡಿ"];
  payNow :=
    [JS.js "ಈಗ ಪಾವತಿಸಿ"; JS.js "ಪಾವತಿಸಿ"; JS.js "ಪೇ ಮಾಡಿ";
     JS.js "ನಿರ್ಧರಿಸಿ"];
  cash :=
    [JS.js "ನಗದು"; JS.js "ಕ್ಯಾಶ್"; JS.js "ನಗದು ಪಾವತಿ";
     JS.js "ಕ್ಯಾಶ್ ಪೇಮೆಂಟ್"];
  card := [JS.js "ಕಾರ್ಡ್"; JS.js "ಕಾರ್ಡ್ ಪಾವತಿ"; JS.js "ಕ್ರೆಡಿಟ್ ಕಾರ್ಡ್"];
  digital :=
    [JS.js "ಡಿಜಿಟಲ್"; JS.js "ಯುಪಿಐ"; JS.js "ವಾಲೆಟ್";
     JS.js "ಫೋನ್ಪೆ"; JS.js "ಜಿಪೆ"];
  received :=
    [JS.js "ಸಿಕ್ಕಿತು"; JS.js "ಪ್ರಾಪ್ತ"; JS.js "ರೂಪಾಯಿ ಸಿಕ್ಕಿತು";
     JS.js "ಕ್ಯಾಶ್ ಸಿಕ್ಕಿತು"; JS.js "ಮೊತ್ತ"];
  remove := [JS.js "ತೆಗೆದುಹಾಕಿ"; JS.js "ಹೊರತೆಗೆಯಿರಿ"; JS.js "ಡಿಲೀಟ್ ಮಾಡಿ"];
  removeLast :=
    [JS.js "ಕೊನೆಯದನ್ನು ತೆಗೆದುಹಾಕಿ"; JS.js "ಹಿಂದಿನದನ್ನು ತೆಗೆದುಹಾಕಿ"; JS.js "ಅನ್ಡೂ"];
  add :=
    [JS.js "ಸೇರಿಸಿ"; JS.js "ತೆಗೆದುಕೊಳ್ಳಿ"; JS.js "ಖರೀದಿಸಿ";
     JS.js "ಕೊಡಿ"];
  numbers :=
    [(JS.js "ಒಂದು", 1); (JS.js "ಎರಡು", 2); (JS.js "ಮೂರು", 3);
     (JS.js "ನಾಲ್ಕು", 4); (JS.js "ಐದು", 5); (JS.js "ಆರು", 6);
     (JS.js "ಏಳು", 7); (JS.js "ಎಂಟು", 8); (JS.js "ಒಂಬತ್ತು", 9);
     (JS.js "ಹತ್ತು", 10)]
|}.

Definition keywords_ml : Keywords := {|
  clear :=
    [JS.js "കാർട്ട് വ്യക്തമാക്കുക"; JS.js "ശൂന്യമാക്കുക"; JS.js "വ്യക്തമാക്കുക";
     JS.js "നീക്കംചെയ്യുക"];
  checkout :=
    [JS.js "ചെക്ക്‌ഔട്ട്"; JS.js "ബിൽ"; JS.js "പേയ്‌മെന്റ്";
     JS.js "ബിൽ ചെയ്യുക"];
  payNow :=
    [JS.js "ഇപ്പോൾ പണമടയ്ക്കുക"; JS.js "പണമടയ്ക്കുക"; JS.js "പേ ചെയ്യുക";
     JS.js "സ്ഥിരീകരിക്കുക"];
  cash :=
    [JS.js "പണം"; JS.js "കാഷ്"; JS.js "പണം പേയ്‌മെന്റ്";
     JS.js "കാഷ് പേയ്‌മെന്റ്"];
  card :=
    [JS.js "കാർഡ്"; JS.js "കാർഡ് പേയ്‌മെന്റ്"; JS.js "ക്രെഡിറ്റ് കാർഡ്"];
  digital :=
    [JS.js "ഡിജിറ്റൽ"; JS.js "യുപിഐ"; JS.js "വാലറ്റ്";
     JS.js "ഫോൺപെ"; JS.js "ജിപെ"];
  received :=
    [JS.js "ലഭിച്ചു"; JS.js "പ്രാപ്തം"; JS.js "രൂപ ലഭിച്ചു";
     JS.js "കാഷ് ലഭിച്ചു"; JS.js "തുക"];
  remove :=
    [JS.js "നീക്കംചെയ്യുക"; JS.js "പുറത്തെടുക്കുക"; JS.js "ഡിലീറ്റ് ചെയ്യുക"];
  removeLast :=
    [JS.js "അവസാനത്തേത് നീക്കംചെയ്യുക"; JS.js "മുമ്പത്തേത് നീക്കംചെയ്യുക"; JS.js "അൺഡൂ"];
  add :=
    [JS.js "ചേർക്കുക"; JS.js "എടുക്കുക"; JS.js "വാങ്ങുക";
     JS.js "കൊടുക്കുക"];
  numbers :=
    [(JS.js "ഒന്ന്", 1); (JS.js "രണ്ട്", 2); (JS.js "മൂന്ന്", 3);
     (JS.js "നാല്", 4); (JS.js "അഞ്ച്", 5); (JS.js "ആറ്", 6);
     (JS.js "ഏഴ്", 7); (JS.js "എട്ട്", 8); (JS.js "ഒമ്പത്", 9);
     (JS.js "പത്ത്", 10)]
|}.

Definition keywords_ta : Keywords := {|
  clear :=
    [JS.js "கார்ட்டை அழிக்க"; JS.js "வெறுமையாக்க"; JS.js "அழி";
     JS.js "நீக்க"];
  checkout :=
    [JS.js "செக்அவுட்"; JS.js "பில்"; JS.js "கட்டணம்";
     JS.js "பில் செய்"];
  payNow :=
    [JS.js "இப்போது பணம் செலுத்த"; JS.js "பணம் செலுத்த"; JS.js "பே செய்";
     JS.js "உறுதிப்படுத்த"];
  cash :=
    [JS.js "பணம்"; JS.js "கேஷ்"; JS.js "பணம் கட்டணம்";
     JS.js "கேஷ் பேமெண்ட்"];
  card := [JS.js "கார்டு"; JS.js "கார்டு கட்டணம்"; JS.js "கிரெடிட் கார்டு"];
  digital :=
    [JS.js "டிஜிட்டல்"; JS.js "யுபிஐ"; JS.js "வாலட்";
     JS.js "ஃபோன்பே"; JS.js "ஜிபே"];
  received :=
    [JS.js "கிடைத்தது"; JS.js "பெறப்பட்டது"; JS.js "ரூபாய் கிடைத்தது";
     JS.js "கேஷ் கிடைத்தது"; JS.js "தொகை"];
  remove := [JS.js "நீக்க"; JS.js "வெளியே எடு"; JS.js "டிலீட் செய்"];
  removeLast :=
    [JS.js "கடைசியை நீக்க"; JS.js "முந்தையதை நீக்க"; JS.js "அன்டூ"];
  add := [JS.js "சேர்"; JS.js "எடு"; JS.js "வாங்க"; JS.js "கொடு"];
  numbers :=
    [(JS.js "ஒன்று", 1); (JS.js "இரண்டு", 2); (JS.js "மூன்று", 3);
     (JS.js "நான்கு", 4); (JS.js "ஐந்து", 5); (JS.js "ஆறு", 6);
     (JS.js "ஏழு", 7); (JS.js "எட்டு", 8); (JS.js "ஒன்பது", 9);
     (JS.js "பத்து", 10)]
|}.

(** What [keywords[baseLang] || keywords.en] evaluates to.  [keywords] is an
    object literal, so besides its five own keys a lookup finds the members
    that every object inherits from [Object.prototype]; each of them is a
    function or an object, hence truthy, and has none of the fields of a
    keyword table. *)
Inductive KeywordsValue :=
| Table (k : Keywords)
| Inherited.

Definition objectPrototypeKeys : list JS.str :=
  [JS.js "constructor"; JS.js "hasOwnProperty"; JS.js "isPrototypeOf";
   JS.js "propertyIsEnumerable"; JS.js "toLocaleString"; JS.js "toString";
   JS.js "valueOf"; JS.js "__proto__"; JS.js "__defineGetter__";
   JS.js "__defineSetter__"; JS.js "__lookupGetter__";
   JS.js "__lookupSetter__"].

(** [private getCommandKeywords(lang)] *)
Definition getCommandKeywords (lang : JS.str) : KeywordsValue :=
  let baseLang := JS.beforeDash lang in
  if JS.eqb baseLang (JS.js "en") then Table keywords_en
  else if JS.eqb baseLang (JS.js "hi") then Table keywords_hi
  else if JS.eqb baseLang (JS.js "kn") then Table keywords_kn
  else if JS.eqb baseLang (JS.js "ml") then Table keywords_ml
  else if JS.eqb baseLang (JS.js "ta") then Table keywords_ta
  else if has objectPrototypeKeys baseLang then Inherited
  else Table keywords_en.

(* ------------------------------------------------------------------ *)
(** ** The pieces of [parseVoiceCommand] *)

(** [containsAny(text, keywords)] *)
Definition containsAny (text : JS.str) (keywords : list JS.str) : bool :=
  existsb (fun keyword => JS.includes text keyword) keywords.

(** The capture [(\d+(?:[\.,]\d{1,2})?)] at the start of a run of digits. *)
Definition isSeparator (c : N) : bool := (c =? 46) || (c =? 44).

Definition captureAmount (s : JS.str) : JS.str :=
  let ds := JS.takeWhile JS.isDigit s in
  match JS.dropWhile JS.isDigit s with
  | sep :: d1 :: rest =>
      if isSeparator sep && JS.isDigit d1 then
        match rest with
        | d2 :: _ => if JS.isDigit d2 then ds ++ [sep; d1; d2]
                     else ds ++ [sep; d1]
        | [] => ds ++ [sep; d1]
        end
      else ds
  | _ => ds
  end.

(** [text.match(/(\d+(?:[\.,]\d{1,2})?)/)]: group 1 of the leftmost match. *)
Fixpoint matchAmount (s : JS.str) : option JS.str :=
  match s with
  | [] => None
  | c :: s' => if JS.isDigit c then Some (captureAmount s) else matchAmount s'
  end.

(** [text.match(/[₹$]?\s*(\d+(?:[\.,]\d{1,2})?)/)]: an attempt at one
    position, then the leftmost position where the attempt succeeds. *)
Definition isCurrency (c : N) : bool := (c =? 0x20B9) || (c =? 36).

Definition currencyAt (s : JS.str) : option JS.str :=
  let s1 := match s with
            | c :: r => if isCurrency c then r else s
            | [] => s
            end in
  let s2 := JS.dropWhile JS.isWhiteSpace s1 in
  match s2 with
  | d :: _ => if JS.isDigit d then Some (captureAmount s2) else None
  | [] => None
  end.

Fixpoint matchCurrency (s : JS.str) : option JS.str :=
  match currencyAt s with
  | Some c => Some c
  | None => match s with
            | [] => None
            | _ :: s' => matchCurrency s'
            end
  end.

(** The body shared by the two attempts: parse the capture, test
    [!isNaN(amount) && amount > 0 && amount <= 1000000], and round with
    [Math.round(amount * 100) / 100].  The capture has at most two
    fractional digits, so [amount] is a whole number of hundredths; the
    double of the source is the one nearest to it, the two tests hold for
    the double exactly when they hold for the rational, and the rounding
    gives back the same number of hundredths. *)
Definition amountOf (m : option JS.str) : option Q :=
  match m with
  | None => None
  | Some capture =>
      match JS.parseFloat (JS.replaceFirstComma capture) with
      | None => None
      | Some amount =>
          if JS.Qlt_bool 0 amount && Qle_bool amount 1000000
          then Some (Qred (inject_Z (JS.round (amount * 100)) / 100))
          else None
      end
  end.

(** The amount that the amount-received branch returns, if it returns. *)
Definition cashAmount (text : JS.str) : option Q :=
  match amountOf (matchAmount text) with
  | Some a => Some a
  | None => amountOf (matchCurrency text)
  end.

(** [text.replace(new RegExp(word, 'gi'), '')] for a word without regular
    expression operators, which is the case of every keyword, number word,
    unit and digit run the parser builds a pattern from. *)
Fixpoint startsWithFolded (p s : JS.str) : bool :=
  match p, s with
  | [], _ => true
  | x :: p', y :: s' =>
      (canonicalize U x =? canonicalize U y) && startsWithFolded p' s'
  | _ :: _, [] => false
  end.

Fixpoint removeAll_from (skip : nat) (p s : JS.str) : JS.str :=
  match s with
  | [] => []
  | c :: s' =>
      match skip with
      | S k => removeAll_from k p s'
      | O =>
          if startsWithFolded p s
          then removeAll_from (List.length p - 1) p s'
          else c :: removeAll_from 0 p s'
      end
  end.

Definition removeAll (p s : JS.str) : JS.str :=
  match p with
  | [] => s
  | _ :: _ => removeAll_from 0 p s
  end.

(** [words.forEach(w => { text = text.replace(new RegExp(w, 'gi'), '') })] *)
Definition removeEach (words : list JS.str) (text : JS.str) : JS.str :=
  fold_left (fun acc w => removeAll w acc) words text.

(** [text.match(/(\d+)/)] *)
Fixpoint matchDigits (s : JS.str) : option JS.str :=
  match s with
  | [] => None
  | c :: s' =>
      if JS.isDigit c then Some (JS.takeWhile JS.isDigit s)
      else matchDigits s'
  end.

(** [Math.max(1, Math.min(n, 100))] *)
Definition clamp (n : N) : N := N.max 1 (N.min n 100).

(** Lines 540-560: the quantity and the text it was read from. *)
Definition extractQuantity (text : JS.str) (keywords : Keywords)
  : N * JS.str :=
  let '(quantity, quantityText) :=
    match find (fun e => JS.includes text (fst e)) (numbers keywords) with
    | Some (word, num) => (clamp num, word)
    | None => (1, [])
    end in
  if quantity =? 1 then
    match matchDigits text with
    | Some ds =>
        let parsed := if JS.digitsValue ds =? 0 then 1
                      else JS.digitsValue ds in
        (clamp parsed, ds)
    | None => (quantity, quantityText)
    end
  else (quantity, quantityText).

Definition units : list JS.str :=
  [JS.js "packet"; JS.js "packets"; JS.js "of"; JS.js "liter";
   JS.js "liters"; JS.js "bottle"; JS.js "bottles"; JS.js "can";
   JS.js "cans"; JS.js "piece"; JS.js "pieces"; JS.js "kg"; JS.js "gram";
   JS.js "grams"].

(** The objects that the parser returns. *)
Definition plain (t : ResultType) (a : string) : CommandResult :=
  {| type := t; product := None; quantity := None; action := Some a;
     method := None; amount := None |}.

Definition payMethod (m : PayMethod) : CommandResult :=
  {| type := T_pay_method; product := None; quantity := None;
     action := Some "select_method"%string; method := Some m;
     amount := None |}.

Definition cashAmountResult (a : Q) : CommandResult :=
  {| type := T_cash_amount; product := None; quantity := None;
     action := Some "set_cash_amount"%string; method := None;
     amount := Some a |}.

Definition removeProduct (p : Product) : CommandResult :=
  {| type := T_remove; product := Some p; quantity := None;
     action := Some "remove_product"%string; method := None;
     amount := None |}.

Definition addProduct (p : Product) (q : N) : CommandResult :=
  {| type := T_add; product := Some p; quantity := Some q; action := None;
     method := None; amount := None |}.

(** Lines 520-536: the product of a remove command, if one is found. *)
Definition removeTarget (text lang : JS.str) (keywords : Keywords)
  : option Product :=
  let productName := removeEach (remove keywords) text in
  let productName := removeEach (map fst (numbers keywords)) productName in
  let productName := JS.trim (JS.removeDigits productName) in
  findProductByName productName (Some lang).

(** Lines 538-596: the default, an add command. *)
Definition addCommand (text lang : JS.str) (keywords : Keywords)
  : CommandResult :=
  let '(quantity, quantityText) := extractQuantity text keywords in
  let productName := removeEach (add keywords) text in
  let productName :=
    if JS.truthy quantityText then removeAll quantityText productName
    else productName in
  let productName := removeEach (map fst (numbers keywords)) productName in
  let productName := JS.removeDigits productName in
  let productName := removeEach units productName in
  let productName := JS.trim productName in
  match findProductByName productName (Some lang) with
  | Some product => addProduct product quantity
  | None => plain T_unknown "product_not_found"
  end.

(** Lines 514-596: what is tried once the amount-received branch is over. *)
Definition afterAmount (text lang : JS.str) (keywords : Keywords)
  : CommandResult :=
  if containsAny text (removeLast keywords)
  then plain T_remove "remove_last"
  else
    match
      (if containsAny text (remove keywords)
       then removeTarget text lang keywords else None)
    with
    | Some product => removeProduct product
    | None => addCommand text lang keywords
    end.

(** [parseVoiceCommand(transcript, language)] *)
Definition parseVoiceCommand (transcript : JS.str) (language : option JS.str)
  : Completion (option CommandResult) :=
  if negb (JS.truthy transcript)
  then Return (Some (plain T_unknown "invalid_input"))
  else
    let lang := activeLanguage language in
    let normalizedTranscript := JS.trim (toLowerCase U transcript) in
    if (List.length normalizedTranscript <? 1)%nat
    then Return (Some (plain T_unknown "empty_transcript"))
    else
      match getCommandKeywords lang with
      | Inherited => Throw TypeError
      | Table keywords =>
          if containsAny normalizedTranscript (clear keywords)
          then Return (Some (plain T_clear "clear_cart"))
          else if containsAny normalizedTranscript (checkout keywords)
          then Return (Some (plain T_checkout "open_payment"))
          else if containsAny normalizedTranscript (payNow keywords)
          then Return (Some (plain T_pay_now "confirm_payment"))
          else if containsAny normalizedTranscript (cash keywords)
          then Return (Some (payMethod M_cash))
          else if containsAny normalizedTranscript (card keywords)
          then Return (Some (payMethod M_card))
          else if containsAny normalizedTranscript (digital keywords)
          then Return (Some (payMethod M_digital))
          else
            match
              (if containsAny normalizedTranscript (received keywords)
               then cashAmount normalizedTranscript else None)
            with
            | Some a => Return (Some (cashAmountResult a))
            | None =>
                Return (Some (afterAmount normalizedTranscript lang keywords))
            end
      end.

End Service.

(* ------------------------------------------------------------------ *)
(** ** The catalogue of the source and the variants of the specification *)

Definition mockProduct (i n : string) (pr : Q) (c : string) (st : N)
  : Product :=
  {| id := JS.js i; name := JS.js n; name_en := JS.js n; name_kn := None;
     name_ml := None; name_ta := None; name_hi := None; price := pr;
     category := JS.js c; stock := st; barcode := None;
     description := None |}.

(** [MOCK_PRODUCTS] *)
Definition MOCK_PRODUCTS : list Product :=
  [mockProduct "1" "Coca Cola" (250 # 100) "Beverages" 100;
   mockProduct "2" "Pepsi" (250 # 100) "Beverages" 85;
   mockProduct "3" "Bread" (320 # 100) "Bakery" 50;
   mockProduct "4" "Milk" (480 # 100) "Dairy" 30;
   mockProduct "5" "Chips" (199 # 100) "Snacks" 75;
   mockProduct "6" "Chocolate Bar" (225 # 100) "Snacks" 60;
   mockProduct "7" "Apple" (99 # 100) "Fruits" 120;
   mockProduct "8" "Banana" (79 # 100) "Fruits" 90;
   mockProduct "9" "Orange Juice" (550 # 100) "Beverages" 40;
   mockProduct "10" "Cookies" (375 # 100) "Snacks" 45;
   mockProduct "11" "Cheese" (620 # 100) "Dairy" 25;
   mockProduct "12" "Yogurt" (185 # 100) "Dairy" 55].

Definition chips : Product := mockProduct "5" "Chips" (199 # 100) "Snacks" 75.

Module Spec.

(** The ten variants of [CommandResult] in the specification. *)
Inductive Variant :=
| Clear
| Checkout
| ConfirmPayment
| SelectPaymentMethod (m : PayMethod)
| SetCashAmount (a : Q)
| RemoveLast
| RemoveItem (p : Product)
| AddItem (p : Product) (q : N)
| PrintReceipt
| Unknown (reason : string).

(** The variant that a returned object stands for, read off its [type]
    field and the fields that go with it. *)
Definition variantOf (r : CommandResult) : option Variant :=
  match type r with
  | T_clear => Some Clear
  | T_checkout => Some Checkout
  | T_pay_now => Some ConfirmPayment
  | T_pay_method => option_map SelectPaymentMethod (method r)
  | T_cash_amount => option_map SetCashAmount (amount r)
  | T_remove =>
      match product r with
      | Some p => Some (RemoveItem p)
      | None => Some RemoveLast
      end
  | T_add =>
      match product r, quantity r with
      | Some p, Some q => Some (AddItem p q)
      | _, _ => None
      end
  | T_print_receipt => Some PrintReceipt
  | T_unknown => option_map Unknown (action r)
  end.

End Spec.

Definition en : JS.str := JS.js "en".

(* ------------------------------------------------------------------ *)
(** ** Search and lookup in the catalogue *)

(** [(n && n.toLowerCase().includes(lowercaseQuery))] for an optional name *)
Definition nameIncludes (U : Unicode) (lowercaseQuery : JS.str)
  (n : option JS.str) : bool :=
  match n with
  | Some n => JS.truthy n && JS.includes (toLowerCase U n) lowercaseQuery
  | None => false
  end.

(** [searchProducts(query, language)] *)
Definition searchProducts (U : Unicode) (i18n : option JS.str)
  (products : list Product) (query : JS.str) (language : option JS.str)
  : list Product :=
  let lang := JS.beforeDash (activeLanguage i18n language) in
  let lowercaseQuery := toLowerCase U query in
  filter
    (fun product =>
       let productName :=
         getProductNameInLanguage i18n product (Some lang) in
       let categoryName := category product in
       JS.includes (toLowerCase U productName) lowercaseQuery ||
       JS.includes (toLowerCase U categoryName) lowercaseQuery ||
       nameIncludes U lowercaseQuery (Some (name_en product)) ||
       nameIncludes U lowercaseQuery (name_kn product) ||
       nameIncludes U lowercaseQuery (name_ml product) ||
       nameIncludes U lowercaseQuery (name_ta product) ||
       nameIncludes U lowercaseQuery (name_hi product))
    products.

(** [getProductById(id)] *)
Definition getProductById (products : list Product) (i : JS.str)
  : option Product :=
  find (fun p => JS.eqb (id p) i) products.

(* ------------------------------------------------------------------ *)
(** ** From database rows to products *)

(** A row of the [products] query, with the columns that [fetchAllProducts]
    selects.  [None] is a column that is [null] or missing; [price] is a
    number, [stock] an integer, as the table declares them. *)
Module ProductRow.
Record t := {
  id : option JS.str;
  name_en : option JS.str;
  name_kn : option JS.str;
  name_ml : option JS.str;
  name_ta : option JS.str;
  name_hi : option JS.str;
  price : option Q;
  stock : option Z;
  barcode : option JS.str;
  description : option JS.str;
  category : option JS.str
}.
End ProductRow.

(** A row of the [categories] query. *)
Module CategoryRow.
Record t := {
  name_en : JS.str;
  name_kn : option JS.str;
  name_ml : option JS.str;
  name_ta : option JS.str;
  name_hi : option JS.str
}.
End CategoryRow.

Module Fetch.

(** Truthiness of an optional string; [x || y] on optional strings. *)
Definition present (o : option JS.str) : bool :=
  match o with Some x => JS.truthy x | None => false end.

Definition orElse (o : option JS.str) (d : JS.str) : JS.str :=
  match o with Some x => if JS.truthy x then x else d | None => d end.

(** [private validateProduct(p)] *)
Definition validateProduct (p : ProductRow.t) : bool :=
  present (ProductRow.id p) && present (ProductRow.name_en p) &&
  match ProductRow.price p with Some x => Qle_bool 0 x | None => false end &&
  match ProductRow.stock p with Some z => (0 <=? z)%Z | None => false end.

(** [categoriesMap.get(name)] for the map built from the category rows: a
    later row replaces an earlier one with the same English name. *)
Definition categoryOf (categories : list CategoryRow.t) (n : JS.str)
  : option CategoryRow.t :=
  find (fun c => JS.eqb (CategoryRow.name_en c) n) (rev categories).

(** [matchedCategory[`name_${currentLang}`]] and [p[`name_${currentLang}`]] *)
Definition categoryName (c : CategoryRow.t) (lang : JS.str)
  : option JS.str :=
  if JS.eqb lang (JS.js "en") then Some (CategoryRow.name_en c)
  else if JS.eqb lang (JS.js "kn") then CategoryRow.name_kn c
  else if JS.eqb lang (JS.js "ml") then CategoryRow.name_ml c
  else if JS.eqb lang (JS.js "ta") then CategoryRow.name_ta c
  else if JS.eqb lang (JS.js "hi") then CategoryRow.name_hi c
  else None.

Definition rowName (p : ProductRow.t) (lang : JS.str) : option JS.str :=
  if JS.eqb lang (JS.js "en") then ProductRow.name_en p
  else if JS.eqb lang (JS.js "kn") then ProductRow.name_kn p
  else if JS.eqb lang (JS.js "ml") then ProductRow.name_ml p
  else if JS.eqb lang (JS.js "ta") then ProductRow.name_ta p
  else if JS.eqb lang (JS.js "hi") then ProductRow.name_hi p
  else None.

(** [x ? String(x).trim() : undefined] *)
Definition trimmed (o : option JS.str) : option JS.str :=
  match o with
  | Some x => if JS.truthy x then Some (JS.trim x) else None
  | None => None
  end.

(** The function given to [.map] in [fetchAllProducts]. *)
Definition toProduct (categories : list CategoryRow.t) (currentLang : JS.str)
  (p : ProductRow.t) : Product :=
  let categoryName0 := JS.trim (orElse (ProductRow.category p) []) in
  let categoryName1 :=
    if JS.truthy categoryName0 && negb (List.length categories =? 0)%nat
    then match categoryOf categories categoryName0 with
         | Some matchedCategory =>
             orElse (categoryName matchedCategory currentLang)
                    (orElse (Some (CategoryRow.name_en matchedCategory))
                            categoryName0)
         | None => categoryName0
         end
    else categoryName0 in
  let productName :=
    JS.trim (orElse (rowName p currentLang) (orElse (ProductRow.name_en p) [])) in
  {| id := orElse (ProductRow.id p) [];
     name := orElse (Some productName)
                    (orElse (ProductRow.name_en p) (JS.js "Unknown Product"));
     name_en := orElse (Some (JS.trim (orElse (ProductRow.name_en p) [])))
                       (JS.js "Unknown Product");
     name_kn := trimmed (ProductRow.name_kn p);
     name_ml := trimmed (ProductRow.name_ml p);
     name_ta := trimmed (ProductRow.name_ta p);
     name_hi := trimmed (ProductRow.name_hi p);
     price := match ProductRow.price p with
              | Some x => if JS.Qlt_bool 0 x then x else 0%Q
              | None => 0%Q
              end;
     category := orElse (Some categoryName1) (JS.js "Uncategorized");
     stock := match ProductRow.stock p with
              | Some z => Z.to_N (Z.max 0 z)
              | None => 0
              end;
     barcode := trimmed (ProductRow.barcode p);
     description := trimmed (ProductRow.description p) |}.

(** [fetchAllProducts()] once the two queries are over: [rows] is the data
    of the products query, or [None] when it failed after the retries;
    [categories] the data of the categories query, empty when it failed.
    The result is the list returned and the new [this.products]. *)
Definition fetchAllProducts (products : list Product)
  (i18n : option JS.str) (categories : list CategoryRow.t)
  (rows : option (list ProductRow.t)) : list Product * list Product :=
  match rows with
  | None =>
      if (0 <? List.length products)%nat then (products, products)
      else (MOCK_PRODUCTS, MOCK_PRODUCTS)
  | Some [] =>
      (if (0 <? List.length products)%nat then products else MOCK_PRODUCTS,
       products)
  | Some data =>
      let currentLang := JS.beforeDash (orString i18n (JS.js "en")) in
      let mapped :=
        map (toProduct categories currentLang)
            (filter validateProduct data) in
      if (List.length mapped =? 0)%nat then (MOCK_PRODUCTS, MOCK_PRODUCTS)
      else (mapped, mapped)
  end.

End Fetch.

(* ------------------------------------------------------------------ *)
(** ** Bills *)

Module Billing.

Local Open Scope Q_scope.

(** [interface CartItem]; numbers are exact rationals, so [NaN] and the
    infinities are left out. *)
Record CartItem := {
  product : Product;
  quantity : Q;
  totalPrice : Q
}.

(** [interface Bill]; [timestamp] is the time value of the [Date]. *)
Record Bill := {
  id : JS.str;
  items : list CartItem;
  subtotal : Q;
  tax : Q;
  total : Q;
  timestamp : Z;
  cashierId : JS.str;
  paymentMethod : option PayMethod
}.

(** A call of [createBill] returns or throws an [Error] with a message. *)
Inductive Outcome (A : Type) :=
| Done (a : A)
| Failed (message : string).
Arguments Done {A} a.
Arguments Failed {A} message.

(** The test of [items.filter(...)] *)
Definition validItem (item : CartItem) : bool :=
  JS.Qlt_bool 0 (quantity item) && Qle_bool 0 (totalPrice item) &&
  Qle_bool 0 (price (product item)).

(** [Math.round(x * 100) / 100] *)
Definition roundCents (x : Q) : Q :=
  Qred (inject_Z (JS.round (x * 100)) / 100).

(** [validItems.reduce((sum, item) => sum + ..., 0)] *)
Definition sumTotals (validItems : list CartItem) : Q :=
  fold_left (fun sum item => sum + totalPrice item) validItems 0.

(** [createBill(items, cashierId)] on the bills [this.bills]; [freshId] is
    the identifier built from the clock and [Math.random()], [now] the time
    of [new Date()].  The result is the bill and the new [this.bills]. *)
Definition createBill (bills : list Bill) (freshId : JS.str) (now : Z)
  (items : list CartItem) (cashierId : JS.str)
  : Outcome (Bill * list Bill) :=
  if (List.length items =? 0)%nat
  then Failed "Cannot create bill with empty items"
  else if negb (JS.truthy cashierId) then Failed "Invalid cashier ID"
  else
    let validItems := filter validItem items in
    if (List.length validItems =? 0)%nat
    then Failed "No valid items in cart"
    else
      let subtotal := sumTotals validItems in
      let tax := roundCents (subtotal * (8 # 100)) in
      let total := roundCents (subtotal + tax) in
      if JS.Qlt_bool subtotal 0 || JS.Qlt_bool total 0
      then Failed "Invalid bill totals calculated"
      else
        let bill :=
          {| id := freshId; items := validItems; subtotal := subtotal;
             tax := tax; total := total; timestamp := now;
             cashierId := cashierId; paymentMethod := None |} in
        Done (bill, bills ++ [bill]).

(** [getBillsByDateRange(startDate, endDate)] *)
Definition getBillsByDateRange (bills : list Bill) (startDate endDate : Z)
  : list Bill :=
  filter (fun bill =>
            (startDate <=? timestamp bill)%Z && (timestamp bill <=? endDate)%Z)
         bills.

End Billing.

(* ------------------------------------------------------------------ *)
(** ** Users and roles *)

Module Auth.

Inductive Role := cashier | manager | admin.

(** [interface User] *)
Record User := {
  id : JS.str;
  username : JS.str;
  role : Role;
  name : JS.str;
  avatar : option JS.str
}.

(** An entry of [MOCK_USERS]: a user and a password. *)
Record Account := {
  user : User;
  password : JS.str
}.

Definition account (i u pw : string) (r : Role) (n : string) : Account :=
  {| user := {| id := JS.js i; username := JS.js u; role := r;
                name := JS.js n; avatar := None |};
     password := JS.js pw |}.

Definition MOCK_USERS : list Account :=
  [account "1" "admin" "admin123" admin "System Administrator";
   account "2" "cashier1" "cash123" cashier "John Smith";
   account "3" "cashier2" "cash123" cashier "Sarah Johnson";
   account "4" "manager" "mgr123" manager "Mike Wilson"].

(** The service's [currentUser] and the entry of [localStorage] under
    [SESSION_KEY], held as the user whose JSON text it is. *)
Record State := {
  currentUser : option User;
  session : option User
}.

(** The object that [login] resolves to. *)
Record LoginResult := {
  success : bool;
  loggedIn : option User;
  error : option string
}.

(** [login(username, password)] *)
Definition login (st : State) (u pw : JS.str) : LoginResult * State :=
  match find (fun a => JS.eqb (username (user a)) u &&
                       JS.eqb (password a) pw) MOCK_USERS with
  | Some userRecord =>
      ({| success := true; loggedIn := Some (user userRecord);
          error := None |},
       {| currentUser := Some (user userRecord);
          session := Some (user userRecord) |})
  | None =>
      ({| success := false; loggedIn := None;
          error := Some "Invalid username or password"%string |}, st)
  end.

(** [logout()] *)
Definition logout (st : State) : State :=
  {| currentUser := None; session := None |}.

(** [isAuthenticated()] *)
Definition isAuthenticated (st : State) : bool :=
  match currentUser st with Some _ => true | None => false end.

Definition roleEqb (a b : Role) : bool :=
  match a, b with
  | cashier, cashier | manager, manager | admin, admin => true
  | _, _ => false
  end.

(** [hasRole(role)] *)
Definition hasRole (st : State) (r : Role) : bool :=
  match currentUser st with
  | None => false
  | Some u =>
      if roleEqb (role u) admin then true
      else if roleEqb (role u) manager && roleEqb r cashier then true
      else roleEqb (role u) r
  end.

(** [loadSession()], as the constructor of a new service runs it. *)
Definition loadSession (st : State) : State :=
  match session st with
  | Some u => {| currentUser := Some u; session := session st |}
  | None => st
  end.

(** Roles in the order of what they may do. *)
Definition rank (r : Role) : nat :=
  match r with cashier => 1 | manager => 2 | admin => 3 end.

End Auth.

(* ------------------------------------------------------------------ *)
(** ** Payments *)

Module Payment.

Local Open Scope Q_scope.

Inductive MethodType := cash | card | digital | other.

(** [interface PaymentMethod] *)
Record PaymentMethod := {
  id : JS.str;
  name : JS.str;
  type : MethodType;
  icon : JS.str;
  enabled : bool
}.

(** [interface PaymentRequest] *)
Record PaymentRequest := {
  amount : Q;
  paymentMethod : PaymentMethod;
  cashReceived : option Q
}.

(** [interface PaymentResult] *)
Record PaymentResult := {
  success : bool;
  transactionId : option JS.str;
  error : option string;
  amountPaid : Q;
  change : option Q;
  resultMethod : PaymentMethod
}.

(** [paymentMethod.type.toUpperCase()] *)
Definition upperType (t : MethodType) : JS.str :=
  match t with
  | cash => JS.js "CASH"
  | card => JS.js "CARD"
  | digital => JS.js "DIGITAL"
  | other => JS.js "OTHER"
  end.

Definition errors : list string :=
  ["Card declined"; "Insufficient funds"; "Network error"; "Card expired";
   "Transaction timeout"]%string.

Definition isZero (x : Q) : bool := Qeq_bool x 0.

(** [processPayment(request)], once the simulated delay is over; [nowText]
    is the text of [Date.now()], [r1] and [r2] the two values that
    [Math.random()] gives for the outcome and for the error message. *)
Definition processPayment (nowText : JS.str) (r1 r2 : Q)
  (request : PaymentRequest) : PaymentResult :=
  let amount := amount request in
  let paymentMethod := paymentMethod request in
  match type paymentMethod with
  | cash =>
      match cashReceived request with
      | Some received =>
          if isZero received || JS.Qlt_bool received amount
          then {| success := false; transactionId := None;
                  error := Some "Insufficient cash received"%string;
                  amountPaid := if isZero received then 0 else received;
                  change := None; resultMethod := paymentMethod |}
          else {| success := true;
                  transactionId := Some (JS.js "CASH-" ++ nowText);
                  error := None; amountPaid := amount;
                  change := Some (received - amount);
                  resultMethod := paymentMethod |}
      | None =>
          {| success := false; transactionId := None;
             error := Some "Insufficient cash received"%string;
             amountPaid := 0; change := None;
             resultMethod := paymentMethod |}
      end
  | t =>
      if JS.Qlt_bool (5 # 100) r1
      then {| success := true;
              transactionId := Some (upperType t ++ JS.js "-" ++ nowText);
              error := None; amountPaid := amount; change := None;
              resultMethod := paymentMethod |}
      else {| success := false; transactionId := None;
              error := nth_error errors (Z.to_nat (Qfloor (r2 * 5)));
              amountPaid := 0; change := None;
              resultMethod := paymentMethod |}
  end.


End Payment.

(* ------------------------------------------------------------------ *)
(** ** Notions used to state the properties *)

(** Lower-casing a string of white space gives a string of white space: a
    fact about [toLowerCase], taken as an assumption on the built-ins where
    it is needed. *)
Definition keepsBlank (U : Unicode) : Prop :=
  forall s : JS.str,
    forallb JS.isWhiteSpace s = true ->
    forallb JS.isWhiteSpace (toLowerCase U s) = true.

(** Code units that lower-casing leaves alone wherever they stand: Basic
    Latin but its capital letters, the Indic blocks from Devanagari to
    Malayalam and Sinhala, and the zero-width non-joiner.  Every literal of
    the keyword tables is made of such units. *)
Definition stable (c : N) : bool :=
  (c <? 65) || ((91 <=? c) && (c <? 128)) ||
  ((0x0900 <=? c) && (c <=? 0x0DFF)) || (c =? 0x200C).

(** Lower-casing keeps a run of stable code units where it is: a fact about
    [toLowerCase], taken as an assumption on the built-ins where it is
    needed. *)
Definition keepsStable (U : Unicode) : Prop :=
  forall a l b : JS.str,
    forallb stable l = true ->
    exists a' b', toLowerCase U (a ++ l ++ b) = a' ++ l ++ b'.

(** A literal as the tables have them: stable code units, and no white
    space at either end. *)
Definition literal (k : JS.str) : bool :=
  forallb stable k &&
  match k, rev k with
  | c :: _, d :: _ => negb (JS.isWhiteSpace c) && negb (JS.isWhiteSpace d)
  | _, _ => false
  end.

Definition allLiterals (keywords : Keywords) : list JS.str :=
  clear keywords ++ checkout keywords ++ payNow keywords ++ cash keywords ++
  card keywords ++ digital keywords ++ received keywords ++
  remove keywords ++ removeLast keywords ++ add keywords.


(** One of the categories tested before amount-received matches. *)
Definition earlierCategory (text : JS.str) (keywords : Keywords) : bool :=
  containsAny text (clear keywords) || containsAny text (checkout keywords) ||
  containsAny text (payNow keywords) || containsAny text (cash keywords) ||
  containsAny text (card keywords) || containsAny text (digital keywords).

(** The results of the stages that follow amount-received. *)
Definition laterStageResult (r : CommandResult) : Prop :=
  r = plain T_remove "remove_last" \/
  (exists p, r = removeProduct p) \/
  (exists p q, r = addProduct p q) \/
  r = plain T_unknown "product_not_found".

(** Token-Jaccard as the specification words it: the number of tokens the
    two sets share over the number of distinct tokens of the two. *)
Definition shared (a b : list JS.str) : nat :=
  List.length (filter (fun x => has b x) a).

Definition distinct (a b : list JS.str) : nat :=
  (List.length a + List.length (filter (fun x => negb (has a x)) b))%nat.

Definition ratio (a b : list JS.str) : Q :=
  if (distinct a b =? 0)%nat then 0%Q
  else (Z.of_nat (shared a b) # Pos.of_nat (distinct a b)).

(** [x] is the first element of [l] with the greatest score: everything
    before it scores strictly less, nothing after it scores more. *)
Definition firstMaximum {A : Type} (score : A -> Q) (l : list A) (x : A)
  : Prop :=
  exists before after,
    l = before ++ x :: after /\
    (forall y, In y before -> (score y < score x)%Q) /\
    (forall y, In y after -> (score y <= score x)%Q).

(** The loop [for (const p of this.products) { ... }] of a fuzzy stage, for
    any way of scoring a product. *)
Definition bestLoop (score : Product -> Q) (l : list Product)
  (best : option (Product * Q)) : option (Product * Q) :=
  fold_left (fun best p => keepBest best p (score p)) l best.


(** A product and two queries for the boundary: "red green blue" shares
    two of five distinct tokens with its name. *)
Definition paint : Product :=
  mockProduct "13" "red green black white" (1250 # 100) "Hardware" 10.




(** A product with a Hindi name, for resolution across languages. *)
Definition chai : Product :=
  {| id := JS.js "30"; name := JS.js "Tea"; name_en := JS.js "Tea";
     name_kn := None; name_ml := None; name_ta := None;
     name_hi := Some (JS.js "चाय"); price := 1000 # 100;
     category := JS.js "Beverages"; stock := 40; barcode := None;
     description := None |}.

(** The stages of [findProductByName] that look at barcodes and names, as
    opposed to the two that score tokens. *)
Definition matchedByName (U : Unicode) (i18n : option JS.str)
  (name : JS.str) (language : option JS.str) (q : Product) : Prop :=
  let lang := JS.beforeDash (activeLanguage i18n language) in
  barcodeMatches U (toUpperCase U (JS.replaceSpaceRuns 95 name)) q = true \/
  exactMatches U i18n lang (normalize U name) q = true \/
  containsMatches U i18n lang (normalize U name) q = true \/
  anyNameMatches U (normalize U name) q = true.

(** The objects that [parseVoiceCommand] can return, each with what holds
    of its payload. *)
Definition resultShape (products : list Product) (r : CommandResult) : Prop :=
  r = plain T_unknown "invalid_input" \/
  r = plain T_unknown "empty_transcript" \/
  r = plain T_unknown "product_not_found" \/
  r = plain T_clear "clear_cart" \/
  r = plain T_checkout "open_payment" \/
  r = plain T_pay_now "confirm_payment" \/
  r = plain T_remove "remove_last" \/
  (exists m, r = payMethod m) \/
  (exists a, r = cashAmountResult a /\
             (0 < a)%Q /\ (a <= 1000000)%Q /\
             exists k : Z, (a == k # 100)%Q) \/
  (exists p, r = removeProduct p /\ In p products) \/
  (exists p q, r = addProduct p q /\ In p products /\ 1 <= q <= 100).

(** A new instance of the authentication service over the same
    [localStorage]: nobody is logged in yet, the stored session is kept. *)
Definition reopened (st : Auth.State) : Auth.State :=
  {| Auth.currentUser := None; Auth.session := Auth.session st |}.

(** A cart and a cash register for the examples. *)
Definition cart : list Billing.CartItem :=
  [{| Billing.product := chips; Billing.quantity := 2;
      Billing.totalPrice := 398 # 100 |};
   {| Billing.product := paint; Billing.quantity := 0;
      Billing.totalPrice := 0 |}].

Definition cashMethod : Payment.PaymentMethod :=
  {| Payment.id := JS.js "cash"; Payment.name := JS.js "Cash";
     Payment.type := Payment.cash; Payment.icon := JS.js "banknote";
     Payment.enabled := true |}.

(* ------------------------------------------------------------------ *)
(** ** Strings: equality, search, trimming *)

Lemma eqb_eq (a b : JS.str) : JS.eqb a b = true <-> a = b.
Proof.
  revert b; induction a as [|x a IH]; intros [|y b]; simpl;
    try (split; [discriminate | discriminate]); try tauto.
  rewrite andb_true_iff, N.eqb_eq, IH.
  split; [intros [-> ->]; reflexivity | intros E; inversion E; auto].
Qed.

Lemma eqb_refl (a : JS.str) : JS.eqb a a = true.
Proof. apply eqb_eq; reflexivity. Qed.

Lemma eqb_neq (a b : JS.str) : JS.eqb a b = false <-> a <> b.
Proof.
  rewrite <- eqb_eq. destruct (JS.eqb a b); split; congruence.
Qed.

Lemma has_In (s : list JS.str) (x : JS.str) : has s x = true <-> In x s.
Proof.
  unfold has. rewrite existsb_exists. split.
  - intros (y & Hy & E). apply eqb_eq in E. subst. exact Hy.
  - intros H. exists x. split; [exact H | apply eqb_refl].
Qed.

Lemma truthy_iff (s : JS.str) : JS.truthy s = true <-> s <> [].
Proof. destruct s; simpl; split; congruence. Qed.

Lemma orString_truthy (s b : JS.str) :
  s <> [] -> orString (Some s) b = s.
Proof. destruct s; simpl; congruence. Qed.

Lemma startsWith_nonempty (p s : JS.str) :
  p <> [] -> JS.startsWith p s = true -> s <> [].
Proof. destruct p, s; simpl; congruence. Qed.

Lemma includes_nonempty (s p : JS.str) :
  p <> [] -> JS.includes s p = true -> s <> [].
Proof.
  intros Hp H. destruct s; [|discriminate].
  simpl in H. rewrite orb_false_r in H. destruct p; [congruence|discriminate].
Qed.

Lemma dropWhile_all (f : N -> bool) (s : JS.str) :
  forallb f s = true -> JS.dropWhile f s = [].
Proof.
  induction s as [|c s IH]; simpl; [reflexivity|].
  intros H. apply andb_true_iff in H as [Hc Hs]. rewrite Hc. auto.
Qed.

Lemma trim_blank (s : JS.str) :
  forallb JS.isWhiteSpace s = true -> JS.trim s = [].
Proof.
  intros H. unfold JS.trim. rewrite (dropWhile_all _ _ H). reflexivity.
Qed.


(* ------------------------------------------------------------------ *)
(** ** The parser on the transcripts of the specification *)

(** C1.  On the transcript "pay with cash" in English the parser returns the
    pay-now object ([type: 'pay_now'], [action: 'confirm_payment']), whatever
    the catalogue: the literal [pay] of the pay-now category is found before
    the cash category, which lists "pay with cash", is tested. *)
Theorem pay_with_cash_confirms_payment :
  forall (i18n : option JS.str) (products : list Product),
    parseVoiceCommand basicLatin i18n products (JS.js "pay with cash")
                      (Some en)
    = Return (Some (plain T_pay_now "confirm_payment")).
Proof. intros i18n products. vm_compute. reflexivity. Qed.

(** C3, as the specification states its third example: "received -5" does
    get an amount, 5. *)
Lemma received_minus_five_has_amount :
  parseVoiceCommand basicLatin None MOCK_PRODUCTS (JS.js "received -5")
                    (Some en)
  = Return (Some (cashAmountResult 5)).
Proof. vm_compute. reflexivity. Qed.

(** C4, as the specification states it for the empty string: the result is
    tagged [invalid_input], not [empty_transcript]. *)
Lemma empty_string_is_invalid_input :
  parseVoiceCommand basicLatin None MOCK_PRODUCTS [] (Some en)
  = Return (Some (plain T_unknown "invalid_input")) /\
  plain T_unknown "invalid_input" <> plain T_unknown "empty_transcript".
Proof. split; [vm_compute; reflexivity | discriminate]. Qed.

(** C5.  On "add one 7 chips" the number word [one] is found, and the
    quantity is still read from the digits: the parser returns an add of
    Chips with quantity 7. *)
Theorem number_word_one_overridden_by_digits :
  parseVoiceCommand basicLatin None MOCK_PRODUCTS (JS.js "add one 7 chips")
                    (Some en)
  = Return (Some (addProduct chips 7)).
Proof. vm_compute. reflexivity. Qed.

(** C10.  With the language code [toString] the lookup of the keyword table
    finds [Object.prototype.toString], which is truthy, so the English table
    is not substituted; reading the [clear] literals of that function gives
    [undefined], and [containsAny] throws a [TypeError] on it. *)
Theorem inherited_language_key_throws :
  parseVoiceCommand basicLatin None MOCK_PRODUCTS (JS.js "hello")
                    (Some (JS.js "toString"))
  = Throw TypeError.
Proof. vm_compute. reflexivity. Qed.

(** *** Blank transcripts *)

Lemma upper_case_letter_not_blank (c : N) :
  65 <= c <= 90 -> JS.isWhiteSpace c = false.
Proof.
  intros H. unfold JS.isWhiteSpace.
  rewrite (proj2 (N.leb_gt c 13)), (proj2 (N.leb_gt 0x2000 c)) by lia.
  rewrite !(proj2 (N.eqb_neq c _)) by lia.
  rewrite !andb_false_r. reflexivity.
Qed.

Lemma lowerUnit_blank (c : N) :
  JS.isWhiteSpace c = true -> BasicLatin.lowerUnit c = c.
Proof.
  intros H. unfold BasicLatin.lowerUnit.
  destruct ((65 <=? c) && (c <=? 90)) eqn:E; [|reflexivity].
  apply andb_true_iff in E as [E1 E2].
  apply N.leb_le in E1, E2.
  rewrite upper_case_letter_not_blank in H by lia. discriminate.
Qed.

Lemma basicLatin_keeps_blank : keepsBlank basicLatin.
Proof.
  intros s. simpl. induction s as [|c s IH]; simpl; [reflexivity|].
  intros H. apply andb_true_iff in H as [Hc Hs].
  rewrite (lowerUnit_blank _ Hc), Hc. simpl. auto.
Qed.

(** C4, amended.  A transcript made of white space only is answered with
    [Unknown]: tagged [empty_transcript] when it has at least one character,
    and [invalid_input] when it is the empty string (the first guard of the
    parser rejects every falsy transcript before it is trimmed). *)
Theorem blank_transcript_is_unknown :
  forall (U : Unicode) (i18n : option JS.str) (products : list Product)
         (transcript : JS.str) (language : option JS.str),
    keepsBlank U ->
    forallb JS.isWhiteSpace transcript = true ->
    parseVoiceCommand U i18n products transcript language
    = Return (Some (plain T_unknown
                      (if JS.truthy transcript then "empty_transcript"
                       else "invalid_input"))).
Proof.
  intros U i18n products transcript language HU Hblank.
  unfold parseVoiceCommand.
  destruct (JS.truthy transcript) eqn:Ht; simpl; [|reflexivity].
  rewrite (trim_blank _ (HU _ Hblank)). reflexivity.
Qed.

Lemma blank_transcript_is_unknown_witness :
  parseVoiceCommand basicLatin None MOCK_PRODUCTS (JS.js "   ") (Some en)
  = Return (Some (plain T_unknown "empty_transcript")).
Proof.
  apply (blank_transcript_is_unknown basicLatin None MOCK_PRODUCTS
           (JS.js "   ") (Some en) basicLatin_keeps_blank).
  reflexivity.
Defined.

(** *** The amount-received branch *)

Lemma matchAmount_skip_blank (s : JS.str) :
  matchAmount (JS.dropWhile JS.isWhiteSpace s) = matchAmount s.
Proof.
  induction s as [|c s IH]; simpl; [reflexivity|].
  destruct (JS.isWhiteSpace c) eqn:Hw; [|reflexivity].
  rewrite IH. destruct (JS.isDigit c) eqn:Hd; [|reflexivity].
  exfalso. unfold JS.isDigit in Hd. apply andb_true_iff in Hd as [H1 H2].
  apply N.leb_le in H1, H2. revert Hw. unfold JS.isWhiteSpace.
  rewrite (proj2 (N.leb_gt c 13)), (proj2 (N.leb_gt 0x2000 c)) by lia.
  rewrite !(proj2 (N.eqb_neq c _)) by lia.
  rewrite !andb_false_r. discriminate.
Qed.

Lemma currency_not_digit (c : N) : isCurrency c = true -> JS.isDigit c = false.
Proof.
  unfold isCurrency, JS.isDigit. intros H.
  apply orb_true_iff in H as [H|H]; apply N.eqb_eq in H; subst; reflexivity.
Qed.

Lemma currencyAt_matchAmount (s : JS.str) (c : JS.str) :
  currencyAt s = Some c -> matchAmount s = Some c.
Proof.
  unfold currencyAt. intros H.
  assert (E : matchAmount s =
              matchAmount (JS.dropWhile JS.isWhiteSpace
                             match s with
                             | x :: r => if isCurrency x then r else s
                             | [] => s
                             end)).
  { rewrite matchAmount_skip_blank. destruct s as [|x r]; [reflexivity|].
    destruct (isCurrency x) eqn:Hx; [|reflexivity].
    simpl. rewrite (currency_not_digit _ Hx). reflexivity. }
  rewrite E.
  destruct (JS.dropWhile JS.isWhiteSpace _) as [|d t] eqn:Hd; [discriminate|].
  destruct (JS.isDigit d) eqn:Hdig; [|discriminate].
  simpl. rewrite Hdig. exact H.
Qed.

Lemma currencyAt_digit (c : N) (s : JS.str) :
  JS.isDigit c = true -> currencyAt (c :: s) = Some (captureAmount (c :: s)).
Proof.
  intros Hd. unfold currencyAt.
  assert (Hc : isCurrency c = false).
  { destruct (isCurrency c) eqn:E; [|reflexivity].
    rewrite (currency_not_digit _ E) in Hd. discriminate. }
  rewrite Hc.
  assert (Hw : JS.isWhiteSpace c = false).
  { pose proof (matchAmount_skip_blank [c]) as M. simpl in M.
    destruct (JS.isWhiteSpace c); [|reflexivity].
    rewrite Hd in M. discriminate. }
  simpl. rewrite Hw, Hd. reflexivity.
Qed.

(** The second pattern captures what the first one does. *)
Lemma matchCurrency_matchAmount (s : JS.str) :
  matchCurrency s = matchAmount s.
Proof.
  induction s as [|c s IH].
  - reflexivity.
  - cbn [matchCurrency].
    destruct (currencyAt (c :: s)) as [m|] eqn:E.
    + symmetry. apply currencyAt_matchAmount. exact E.
    + rewrite IH. simpl. destruct (JS.isDigit c) eqn:Hd; [|reflexivity].
      rewrite (currencyAt_digit _ _ Hd) in E. discriminate.
Qed.

Lemma cashAmount_first_pattern (text : JS.str) :
  cashAmount text = amountOf (matchAmount text).
Proof.
  unfold cashAmount. rewrite matchCurrency_matchAmount.
  destruct (amountOf (matchAmount text)); reflexivity.
Qed.

Lemma Qlt_bool_iff (a b : Q) : JS.Qlt_bool a b = true <-> (a < b)%Q.
Proof.
  unfold JS.Qlt_bool. rewrite negb_true_iff.
  destruct (Qle_bool b a) eqn:E.
  - apply Qle_bool_iff in E. split; [discriminate|].
    intros H. exfalso. apply (Qlt_not_le _ _ H E).
  - split; [|reflexivity]. intros _. apply Qnot_le_lt. intros H.
    apply Qle_bool_iff in H. congruence.
Qed.


Lemma afterAmount_later_stage
  (U : Unicode) (i18n : option JS.str) (products : list Product)
  (text lang : JS.str) (keywords : Keywords) :
  laterStageResult (afterAmount U i18n products text lang keywords).
Proof.
  unfold afterAmount, laterStageResult.
  destruct (containsAny text (removeLast keywords)); [left; reflexivity|].
  destruct (if containsAny text (remove keywords) then _ else None) as [p|].
  - right; left. exists p. reflexivity.
  - unfold addCommand. destruct (extractQuantity text keywords) as [q qt].
    destruct (findProductByName _ _ _ _ _) as [p|].
    + right; right; left. exists p, q. reflexivity.
    + right; right; right. reflexivity.
Qed.

Lemma later_stage_no_amount (r : CommandResult) :
  laterStageResult r -> type r <> T_cash_amount /\ amount r = None.
Proof.
  intros [-> | [[p ->] | [(p & q & ->) | ->]]]; simpl; split;
    solve [discriminate | reflexivity].
Qed.

(** A category tested before amount-received matches: the parser returns
    its object, which carries no amount. *)
Ltac earlier_category :=
  repeat match goal with
         | |- context [if containsAny ?t ?k then Return _ else _] =>
             destruct (containsAny t k);
             [split;
              [eexists; split; [reflexivity|split; [discriminate|reflexivity]]
              | discriminate]|]
         end.

(** What the parser does when the amount-received branch has no amount. *)
Lemma parse_without_amount
  (U : Unicode) (i18n : option JS.str) (products : list Product)
  (transcript : JS.str) (language : option JS.str) (keywords : Keywords) :
  transcript <> [] ->
  JS.trim (toLowerCase U transcript) <> [] ->
  getCommandKeywords (activeLanguage i18n language) = Table keywords ->
  cashAmount (JS.trim (toLowerCase U transcript)) = None ->
  (exists r,
      parseVoiceCommand U i18n products transcript language = Return (Some r)
      /\ type r <> T_cash_amount /\ amount r = None) /\
  (earlierCategory (JS.trim (toLowerCase U transcript)) keywords = false ->
   parseVoiceCommand U i18n products transcript language
   = Return (Some (afterAmount U i18n products
                     (JS.trim (toLowerCase U transcript))
                     (activeLanguage i18n language) keywords))).
Proof.
  intros Ht Hn Hk Hc. unfold parseVoiceCommand, earlierCategory.
  apply truthy_iff in Ht. rewrite Ht. simpl negb. cbv iota.
  remember (JS.trim (toLowerCase U transcript)) as text eqn:Etext.
  destruct text as [|c text']; [congruence|].
  change ((List.length (c :: text') <? 1)%nat) with false. cbv iota.
  rewrite Hk, Hc.
  pose proof (later_stage_no_amount _
                (afterAmount_later_stage U i18n products (c :: text')
                   (activeLanguage i18n language) keywords)) as [L1 L2].
  earlier_category.
  assert (E : (if containsAny (c :: text') (received keywords)
               then @None Q else None) = None)
    by (destruct (containsAny _ _); reflexivity).
  rewrite E. split.
  - eexists. split; [reflexivity|]. split; assumption.
  - reflexivity.
Qed.

(** Every literal of a keyword table is a non-empty string; the facts are
    read off the five tables. *)
Ltac by_table H :=
  unfold getCommandKeywords in H;
  repeat match type of H with
         | (if ?b then _ else _) = _ => destruct b
         end;
  try discriminate; injection H as <-;
  let k := fresh "k" in
  let Hin := fresh "Hin" in
  intros k Hin; simpl in Hin;
  repeat (destruct Hin as [<- | Hin]; [discriminate|]);
  destruct Hin.





(** C3, amended.  In English, with any catalogue: "received 50 dollars"
    gives the amount 50, "received ₹45.5" gives 45.5 (the rational 91/2), and
    "received -5" gives the amount 5, because the amount pattern reads digits
    only and leaves the sign out.  An amount that is not positive, as in
    "received 0", is rejected and no amount is attached. *)
Theorem received_amount_examples :
  forall (i18n : option JS.str) (products : list Product),
    parseVoiceCommand basicLatin i18n products (JS.js "received 50 dollars")
                      (Some en)
    = Return (Some (cashAmountResult 50)) /\
    parseVoiceCommand basicLatin i18n products (JS.js "received ₹45.5")
                      (Some en)
    = Return (Some (cashAmountResult (91 # 2))) /\
    parseVoiceCommand basicLatin i18n products (JS.js "received -5")
                      (Some en)
    = Return (Some (cashAmountResult 5)) /\
    (exists r,
        parseVoiceCommand basicLatin i18n products (JS.js "received 0")
                          (Some en)
        = Return (Some r) /\
        type r <> T_cash_amount /\ amount r = None).
Proof.
  intros i18n products.
  split; [vm_compute; reflexivity|].
  split; [vm_compute; reflexivity|].
  split; [vm_compute; reflexivity|].
  apply (parse_without_amount basicLatin i18n products (JS.js "received 0")
           (Some en) keywords_en).
  - discriminate.
  - discriminate.
  - reflexivity.
  - vm_compute. reflexivity.
Qed.

(** *** Checkout before cash *)

Lemma checkout_literals_not_empty (keywords : Keywords) (lang : JS.str) :
  getCommandKeywords lang = Table keywords ->
  forall k, In k (checkout keywords) -> k <> [].
Proof. intros H. by_table H. Qed.

(** C8, as the specification states it: "clear cart then checkout with cash"
    holds a checkout literal and a cash literal of English, and is classified
    as Clear, not as Checkout. *)
Lemma clear_wins_over_checkout :
  containsAny (JS.js "clear cart then checkout with cash")
              (checkout keywords_en) = true /\
  containsAny (JS.js "clear cart then checkout with cash")
              (cash keywords_en) = true /\
  parseVoiceCommand basicLatin None MOCK_PRODUCTS
                    (JS.js "clear cart then checkout with cash") (Some en)
  = Return (Some (plain T_clear "clear_cart")) /\
  Spec.variantOf (plain T_clear "clear_cart") <> Some Spec.Checkout.
Proof.
  split; [vm_compute; reflexivity|].
  split; [vm_compute; reflexivity|].
  split; [vm_compute; reflexivity | discriminate].
Qed.

(** C8, amended.  For every language that has a keyword table (its own or
    the English one as fallback) and every transcript that, lower-cased and
    trimmed as the parser does, contains a checkout literal and a cash
    literal of that table: the result is Checkout, unless the transcript
    also contains a clear literal of the table, in which case it is Clear;
    it is never the selection of the cash method. *)
Theorem checkout_before_cash :
  forall (U : Unicode) (i18n : option JS.str) (products : list Product)
         (transcript : JS.str) (language : option JS.str)
         (keywords : Keywords),
    let text := JS.trim (toLowerCase U transcript) in
    transcript <> [] ->
    getCommandKeywords (activeLanguage i18n language) = Table keywords ->
    containsAny text (checkout keywords) = true ->
    containsAny text (cash keywords) = true ->
    parseVoiceCommand U i18n products transcript language
    = Return (Some (if containsAny text (clear keywords)
                    then plain T_clear "clear_cart"
                    else plain T_checkout "open_payment")) /\
    parseVoiceCommand U i18n products transcript language
    <> Return (Some (payMethod M_cash)).
Proof.
  intros U i18n products transcript language keywords text Ht Hk Hco Hca.
  assert (Hn : text <> []).
  { apply existsb_exists in Hco as (k & Hin & Hinc).
    exact (includes_nonempty _ _
             (checkout_literals_not_empty _ _ Hk k Hin) Hinc). }
  unfold parseVoiceCommand. apply truthy_iff in Ht. rewrite Ht.
  simpl negb. cbv iota. fold text.
  destruct text as [|c text'] eqn:Etext; [congruence|].
  change ((List.length (c :: text') <? 1)%nat) with false. cbv iota.
  rewrite Hk, Hco.
  destruct (containsAny (c :: text') (clear keywords));
    (split; [reflexivity | discriminate]).
Qed.

Lemma checkout_before_cash_witness :
  parseVoiceCommand basicLatin None MOCK_PRODUCTS
                    (JS.js "Checkout with CASH") (Some en)
  = Return (Some (plain T_checkout "open_payment")).
Proof.
  refine (proj1 (checkout_before_cash basicLatin None MOCK_PRODUCTS
                   (JS.js "Checkout with CASH") (Some en) keywords_en
                   _ _ _ _)).
  - discriminate.
  - reflexivity.
  - vm_compute. reflexivity.
  - vm_compute. reflexivity.
Defined.

(** *** Independence of the ambient language *)



Section AmbientLanguage.

Variable U : Unicode.
Variables i1 i2 : option JS.str.
Variable products : list Product.

Lemma activeLanguage_given (i : option JS.str) (l : JS.str) :
  l <> [] -> activeLanguage i (Some l) = l.
Proof. intros H. unfold activeLanguage. apply orString_truthy, H. Qed.


Lemma beforeDash_given (l : JS.str) : JS.beforeDash l <> [] -> l <> [].
Proof. destruct l; [intros H; exact H | intros _; discriminate]. Qed.




End AmbientLanguage.



(** *** Token sets and their Jaccard score *)

Lemma has_app (s t : list JS.str) (x : JS.str) :
  has (s ++ t) x = has s x || has t x.
Proof. unfold has. apply existsb_app. Qed.

Lemma has_false (s : list JS.str) (x : JS.str) :
  has s x = false <-> ~ In x s.
Proof.
  rewrite <- has_In. destruct (has s x); split; congruence.
Qed.

(** Adding the members of a duplicate-free list to a set appends, in order,
    the ones that the set does not have yet. *)
Lemma fold_setAdd (l : list JS.str) :
  NoDup l ->
  forall acc,
    fold_left setAdd l acc
    = acc ++ filter (fun x => negb (has acc x)) l.
Proof.
  induction l as [|x l IH]; intros Hl acc; simpl.
  - rewrite app_nil_r. reflexivity.
  - inversion Hl as [|? ? Hx Hl']; subst.
    unfold setAdd at 2. destruct (has acc x) eqn:E; simpl.
    + apply IH. exact Hl'.
    + rewrite (IH Hl'), <- app_assoc. simpl. do 2 f_equal.
      apply filter_ext_in. intros y Hy. rewrite has_app. simpl.
      rewrite orb_false_r.
      assert (Hyx : JS.eqb y x = false)
        by (apply eqb_neq; intros ->; contradiction).
      rewrite Hyx, orb_false_r. reflexivity.
Qed.

Lemma newSet_of_set (l : list JS.str) : NoDup l -> newSet l = l.
Proof.
  intros H. unfold newSet. rewrite (fold_setAdd l H). simpl.
  induction l as [|x l IH]; simpl; [reflexivity|].
  inversion H; subst. f_equal. auto.
Qed.

Lemma fold_setAdd_NoDup (l : list JS.str) :
  forall acc, NoDup acc -> NoDup (fold_left setAdd l acc).
Proof.
  induction l as [|x l IH]; intros acc Hacc; simpl; [exact Hacc|].
  apply IH. unfold setAdd. destruct (has acc x) eqn:E; [exact Hacc|].
  apply has_false in E. apply NoDup_app; [exact Hacc | | ].
  - constructor; [intros [] | constructor].
  - intros y Hy [<- | []]. contradiction.
Qed.

Lemma newSet_NoDup (l : list JS.str) : NoDup (newSet l).
Proof. apply fold_setAdd_NoDup. constructor. Qed.

Lemma tokenSet_NoDup (U : Unicode) (s : JS.str) : NoDup (tokenSet U s).
Proof. apply newSet_NoDup. Qed.

(** On sets, [jaccard] is the ratio of the specification. *)
Lemma jaccard_ratio (a b : list JS.str) :
  NoDup a -> NoDup b -> jaccard a b = ratio a b.
Proof.
  intros Ha Hb. unfold jaccard, ratio, shared, distinct.
  rewrite (newSet_of_set (filter _ a)) by (apply NoDup_filter; exact Ha).
  assert (E : List.length (newSet (a ++ b))
              = (List.length a
                 + List.length (filter (fun x => negb (has a x)) b))%nat).
  { unfold newSet.
    rewrite fold_left_app.
    change (fold_left setAdd a []) with (newSet a).
    rewrite (newSet_of_set a Ha), (fold_setAdd b Hb a).
    apply length_app. }
  rewrite E. reflexivity.
Qed.

(** *** The loop that keeps the best score *)

Section BestScore.

Variable score : Product -> Q.


Lemma firstMaximum_bound (l : list Product) (p y : Product) :
  firstMaximum score l p -> In y l -> (score y <= score p)%Q.
Proof.
  intros (before & after & -> & Hb & Ha) Hy.
  apply in_app_or in Hy as [Hy | [<- | Hy]].
  - apply Qlt_le_weak, Hb, Hy.
  - apply Qle_refl.
  - apply Ha, Hy.
Qed.

Lemma firstMaximum_single (p : Product) : firstMaximum score [p] p.
Proof.
  exists [], []. split; [reflexivity|]. split; intros y [].
Qed.

(** One more product after a prefix whose first maximum is known. *)
Lemma firstMaximum_step (done : list Product) (p x : Product) :
  firstMaximum score done p ->
  firstMaximum score (done ++ [x])
               (if JS.Qlt_bool (score p) (score x) then x else p).
Proof.
  intros Hp. destruct (JS.Qlt_bool (score p) (score x)) eqn:E.
  - apply Qlt_bool_iff in E. exists done, []. split; [reflexivity|].
    split; [|intros y []].
    intros y Hy. eapply Qle_lt_trans; [|exact E].
    exact (firstMaximum_bound done p y Hp Hy).
  - assert (Hx : (score x <= score p)%Q).
    { apply Qnot_lt_le. intros H. apply Qlt_bool_iff in H. congruence. }
    destruct Hp as (before & after & -> & Hb & Ha).
    exists before, (after ++ [x]). split.
    + rewrite <- app_assoc. reflexivity.
    + split; [exact Hb|]. intros y Hy.
      apply in_app_or in Hy as [Hy | [<- | []]]; [apply Ha, Hy | exact Hx].
Qed.

Lemma best_loop (l : list Product) :
  forall done p,
    firstMaximum score done p ->
    exists p',
      bestLoop score l (Some (p, score p)) = Some (p', score p') /\
      firstMaximum score (done ++ l) p'.
Proof.
  unfold bestLoop.
  induction l as [|x l IH]; intros done p Hp; cbn [fold_left].
  - exists p. rewrite app_nil_r. split; [reflexivity | exact Hp].
  - pose proof (firstMaximum_step done p x Hp) as Hstep.
    change (keepBest (Some (p, score p)) x (score x))
      with (if JS.Qlt_bool (score p) (score x)
            then Some (x, score x) else Some (p, score p)).
    destruct (JS.Qlt_bool (score p) (score x));
      destruct (IH _ _ Hstep) as (p' & E & H);
      exists p'; rewrite <- app_assoc in H; split; assumption.
Qed.

Lemma best_of_all (l : list Product) :
  match bestLoop score l None with
  | Some (p, s) => s = score p /\ firstMaximum score l p
  | None => l = []
  end.
Proof.
  unfold bestLoop.
  destruct l as [|x l]; cbn [fold_left]; [reflexivity|].
  destruct (best_loop l [x] x (firstMaximum_single x)) as (p' & E & H).
  change (keepBest None x (score x)) with (Some (x, score x)).
  unfold bestLoop in E. rewrite E. split; [reflexivity | exact H].
Qed.

Lemma firstMaximum_unique (l : list Product) (p p' : Product) :
  firstMaximum score l p -> firstMaximum score l p' -> p = p'.
Proof.
  intros (b1 & a1 & E1 & Hb1 & Ha1) (b2 & a2 & E2 & Hb2 & Ha2).
  rewrite E1 in E2. apply app_eq_app in E2 as [m [[-> E] | [-> E]]].
  - destruct m as [|z m]; simpl in E; injection E as E E';
      [symmetry; exact E|].
    subst z a2. exfalso.
    apply (Qlt_not_le (score p') (score p)).
    + apply Hb1. apply in_or_app. right. left. reflexivity.
    + apply Ha2. apply in_or_app. right. left. reflexivity.
  - destruct m as [|z m]; simpl in E; injection E as E E'; [exact E|].
    subst z a1. exfalso.
    apply (Qlt_not_le (score p) (score p')).
    + apply Hb2. apply in_or_app. right. left. reflexivity.
    + apply Ha1. apply in_or_app. right. left. reflexivity.
Qed.

(** The loop followed by the test against the threshold. *)
Lemma accepted_first_maximum (l : list Product) (p : Product) :
  accepted (bestLoop score l None) = Some p <->
  firstMaximum score l p /\ (threshold <= score p)%Q.
Proof.
  pose proof (best_of_all l) as H.
  destruct (bestLoop score l None) as [[p' s]|]; simpl.
  - destruct H as [-> H]. split.
    + destruct (Qle_bool threshold (score p')) eqn:E; [|discriminate].
      intros [= <-]. split; [exact H | apply Qle_bool_iff, E].
    + intros [Hp Ht]. rewrite (firstMaximum_unique l p p' Hp H) in *.
      apply Qle_bool_iff in Ht. rewrite Ht. reflexivity.
  - subst l. split; [discriminate|].
    intros [(before & after & E & _) _]. destruct before; discriminate.
Qed.

End BestScore.



(** *** A product found by its own name *)







(** *** Supporting facts: when the ambient language is read *)

(** Without a language argument the parser takes [i18n.language]: the
    Hindi checkout literal is recognised when the ambient language is Hindi
    and is looked up as a product when it is English. *)
Example ambient_language_read_when_argument_missing :
  parseVoiceCommand basicLatin (Some (JS.js "hi")) MOCK_PRODUCTS
                    (JS.js "बिल") None
  = Return (Some (plain T_checkout "open_payment")) /\
  parseVoiceCommand basicLatin (Some en) MOCK_PRODUCTS (JS.js "बिल") None
  = Return (Some (plain T_unknown "product_not_found")).
Proof. split; vm_compute; reflexivity. Qed.

(** *** Supporting facts: totality and the range of the quantity *)

(** A call either returns an object that stands for one of the ten variants
    of the specification, or the language code names a member inherited from
    [Object.prototype] and the call throws. *)
Lemma parse_returns_unless_inherited
  (U : Unicode) (i18n : option JS.str) (products : list Product)
  (transcript : JS.str) (language : option JS.str) :
  (exists r v,
      parseVoiceCommand U i18n products transcript language = Return (Some r)
      /\ Spec.variantOf r = Some v) \/
  (parseVoiceCommand U i18n products transcript language = Throw TypeError /\
   getCommandKeywords (activeLanguage i18n language) = Inherited).
Proof.
  unfold parseVoiceCommand.
  destruct (negb (JS.truthy transcript));
    [left; do 2 eexists; split; reflexivity|].
  cbv zeta.
  destruct (List.length (JS.trim (toLowerCase U transcript)) <? 1)%nat;
    [left; do 2 eexists; split; reflexivity|].
  destruct (getCommandKeywords (activeLanguage i18n language))
    as [keywords|]; [left | right; split; reflexivity].
  repeat match goal with
         | |- context [if containsAny ?t ?k then Return _ else _] =>
             destruct (containsAny t k);
             [do 2 eexists; split; reflexivity|]
         end.
  destruct (if containsAny _ (received keywords) then _ else None) as [a|];
    [do 2 eexists; split; reflexivity|].
  destruct (afterAmount_later_stage U i18n products
              (JS.trim (toLowerCase U transcript))
              (activeLanguage i18n language) keywords)
    as [E | [[p E] | [(p & q & E) | E]]];
    rewrite E; do 2 eexists; split; reflexivity.
Qed.

Lemma clamp_range (n : N) : 1 <= clamp n <= 100.
Proof. unfold clamp. lia. Qed.

(** The quantity of an add command is always between 1 and 100. *)
Lemma extractQuantity_range (text : JS.str) (keywords : Keywords) :
  1 <= fst (extractQuantity text keywords) <= 100.
Proof.
  unfold extractQuantity.
  destruct (find _ (numbers keywords)) as [[word num]|].
  - destruct (clamp num =? 1) eqn:E.
    + destruct (matchDigits text); simpl; [apply clamp_range|].
      apply clamp_range.
    + simpl. apply clamp_range.
  - simpl. destruct (matchDigits text); simpl; [apply clamp_range | lia].
Qed.

(** Without a number word the quantity is read from the first run of
    digits, clamped, and is 1 when there is none: "add 500 chips" asks for
    100, "chips" for 1. *)
Lemma extractQuantity_digits (text : JS.str) (keywords : Keywords) :
  find (fun e => JS.includes text (fst e)) (numbers keywords) = None ->
  fst (extractQuantity text keywords)
  = match matchDigits text with
    | Some ds => clamp (if JS.digitsValue ds =? 0 then 1
                        else JS.digitsValue ds)
    | None => 1
    end.
Proof.
  intros H. unfold extractQuantity. rewrite H. simpl.
  destruct (matchDigits text); reflexivity.
Qed.

Example add_500_chips :
  parseVoiceCommand basicLatin None MOCK_PRODUCTS (JS.js "add 500 chips")
                    (Some en)
  = Return (Some (addProduct chips 100)).
Proof. vm_compute. reflexivity. Qed.

Example add_two_packets_of_chips :
  parseVoiceCommand basicLatin None MOCK_PRODUCTS
                    (JS.js "add two packets of chips") (Some en)
  = Return (Some (addProduct chips 2)).
Proof. vm_compute. reflexivity. Qed.

(** *** Supporting facts: how far the two defects reach *)

Lemma startsWith_trans (q p s : JS.str) :
  JS.startsWith q p = true -> JS.startsWith p s = true ->
  JS.startsWith q s = true.
Proof.
  revert p s. induction q as [|x q IH]; intros p s Hqp Hps; [reflexivity|].
  destruct p as [|y p]; [discriminate|].
  destruct s as [|z s]; [discriminate|].
  simpl in *. apply andb_true_iff in Hqp as [Hxy Hq].
  apply andb_true_iff in Hps as [Hyz Hp].
  apply N.eqb_eq in Hxy, Hyz. subst.
  rewrite N.eqb_refl. simpl. exact (IH _ _ Hq Hp).
Qed.

Lemma includes_prefix (s p q : JS.str) :
  JS.startsWith q p = true -> JS.includes s p = true ->
  JS.includes s q = true.
Proof.
  intros Hq. induction s as [|c s IH]; simpl; intros H.
  - rewrite orb_false_r in *. exact (startsWith_trans _ _ _ Hq H).
  - apply orb_true_iff in H as [H | H].
    + rewrite (startsWith_trans _ _ _ Hq H). reflexivity.
    + rewrite (IH H). apply orb_true_r.
Qed.

(** In English no transcript that contains "pay with cash" selects the cash
    method: it also contains "pay", so an earlier category answers. *)
Lemma pay_with_cash_never_selects_cash
  (U : Unicode) (i18n : option JS.str) (products : list Product)
  (transcript : JS.str) (language : option JS.str) :
  getCommandKeywords (activeLanguage i18n language) = Table keywords_en ->
  JS.includes (JS.trim (toLowerCase U transcript)) (JS.js "pay with cash")
  = true ->
  parseVoiceCommand U i18n products transcript language
  <> Return (Some (payMethod M_cash)).
Proof.
  intros Hk Hinc. unfold parseVoiceCommand.
  destruct (negb (JS.truthy transcript)); [discriminate|]. cbv zeta.
  destruct (List.length _ <? 1)%nat; [discriminate|].
  rewrite Hk.
  destruct (containsAny _ (clear keywords_en)); [discriminate|].
  destruct (containsAny _ (checkout keywords_en)); [discriminate|].
  assert (Hpay : containsAny (JS.trim (toLowerCase U transcript))
                             (payNow keywords_en) = true).
  { apply existsb_exists. exists (JS.js "pay"). split.
    - simpl. tauto.
    - exact (includes_prefix _ (JS.js "pay with cash") (JS.js "pay")
               eq_refl Hinc). }
  rewrite Hpay. discriminate.
Qed.

(** When the number word that is found stands for 1, the quantity is the
    one read from the digits of the transcript, if it has any. *)
Lemma extractQuantity_word_one
  (text : JS.str) (keywords : Keywords) (word ds : JS.str) :
  find (fun e => JS.includes text (fst e)) (numbers keywords)
  = Some (word, 1) ->
  matchDigits text = Some ds ->
  extractQuantity text keywords
  = (clamp (if JS.digitsValue ds =? 0 then 1 else JS.digitsValue ds), ds).
Proof.
  intros Hw Hd. unfold extractQuantity. rewrite Hw, Hd. reflexivity.
Qed.

(** A number word that stands for more than 1 decides the quantity. *)
Lemma extractQuantity_word
  (text : JS.str) (keywords : Keywords) (word : JS.str) (num : N) :
  find (fun e => JS.includes text (fst e)) (numbers keywords)
  = Some (word, num) ->
  1 < num ->
  extractQuantity text keywords = (clamp num, word).
Proof.
  intros Hw Hn. unfold extractQuantity. rewrite Hw.
  assert (E : (clamp num =? 1) = false)
    by (apply N.eqb_neq; unfold clamp; lia).
  rewrite E. reflexivity.
Qed.

(** *** Supporting facts: a literal in the transcript as it is spoken *)

Lemma startsWith_iff (p s : JS.str) :
  JS.startsWith p s = true <-> exists b, s = p ++ b.
Proof.
  revert s. induction p as [|x p IH]; intros s; simpl.
  - split; [intros _; exists s; reflexivity | reflexivity].
  - destruct s as [|y s].
    + split; [discriminate | intros [b E]; discriminate].
    + rewrite andb_true_iff, N.eqb_eq, IH. split.
      * intros [-> [b ->]]. exists b. reflexivity.
      * intros [b E]. injection E as -> ->. split; [reflexivity|].
        exists b. reflexivity.
Qed.

Lemma includes_iff (s p : JS.str) :
  JS.includes s p = true <-> exists a b, s = a ++ p ++ b.
Proof.
  induction s as [|c s IH]; simpl.
  - rewrite orb_false_r, startsWith_iff. split.
    + intros [b E]. exists [], b. exact E.
    + intros (a & b & E). destruct a; [exists b; exact E | discriminate].
  - rewrite orb_true_iff, startsWith_iff, IH. split.
    + intros [[b E] | (a & b & E)].
      * exists [], b. exact E.
      * exists (c :: a), b. rewrite E. reflexivity.
    + intros (a & b & E). destruct a as [|x a]; simpl in E.
      * left. exists b. exact E.
      * injection E as -> ->. right. exists a, b. reflexivity.
Qed.

Lemma dropWhile_keeps (f : N -> bool) (c : N) (l b : JS.str) :
  f c = false ->
  forall a, exists a', JS.dropWhile f (a ++ (c :: l) ++ b)
                       = a' ++ (c :: l) ++ b.
Proof.
  intros Hc. induction a as [|x a IH]; simpl.
  - rewrite Hc. exists []. reflexivity.
  - destruct (f x).
    + exact IH.
    + exists (x :: a). reflexivity.
Qed.

Lemma trim_keeps (k a b : JS.str) :
  literal k = true -> exists a' b', JS.trim (a ++ k ++ b) = a' ++ k ++ b'.
Proof.
  unfold literal. intros H. apply andb_true_iff in H as [_ H].
  destruct k as [|c l] eqn:Ek; [discriminate|]. rewrite <- Ek in *.
  destruct (rev k) as [|d m] eqn:Er; [discriminate|].
  apply andb_true_iff in H as [Hc Hd].
  apply negb_true_iff in Hc, Hd.
  unfold JS.trim.
  destruct (dropWhile_keeps JS.isWhiteSpace c l b Hc a) as [a' Ea].
  rewrite <- Ek in Ea. rewrite Ea.
  rewrite !rev_app_distr, Er, <- app_assoc.
  destruct (dropWhile_keeps JS.isWhiteSpace d m (rev a') Hd (rev b))
    as [b' Eb].
  rewrite Eb, <- Er, !rev_app_distr, !rev_involutive, <- app_assoc.
  exists a', (rev b'). reflexivity.
Qed.

Lemma literal_stable (k : JS.str) :
  literal k = true -> forallb stable k = true.
Proof. unfold literal. intros H. apply andb_true_iff in H. tauto. Qed.

(** A literal that is part of the transcript is part of the text that the
    parser searches. *)
Lemma literal_survives (U : Unicode) (transcript k : JS.str) :
  keepsStable U -> literal k = true ->
  JS.includes transcript k = true ->
  JS.includes (JS.trim (toLowerCase U transcript)) k = true.
Proof.
  intros HU Hk H. apply includes_iff in H as (a & b & ->).
  destruct (HU a k b (literal_stable k Hk)) as (a1 & b1 & ->).
  destruct (trim_keeps k a1 b1 Hk) as (a2 & b2 & ->).
  apply includes_iff. exists a2, b2. reflexivity.
Qed.

Lemma tables_hold_literals (keywords : Keywords) (lang : JS.str) :
  getCommandKeywords lang = Table keywords ->
  forallb literal (allLiterals keywords) = true.
Proof.
  unfold getCommandKeywords. intros H.
  repeat match type of H with
         | (if ?b then _ else _) = _ => destruct b
         end;
    try discriminate; injection H as <-; vm_compute; reflexivity.
Qed.

Lemma basicLatin_keeps_stable : keepsStable basicLatin.
Proof.
  intros a l b H. exists (map BasicLatin.lowerUnit a),
                    (map BasicLatin.lowerUnit b).
  simpl. rewrite !map_app. do 2 f_equal.
  induction l as [|c l IH]; simpl; [reflexivity|].
  simpl in H. apply andb_true_iff in H as [Hc Hl].
  rewrite (IH Hl). f_equal.
  unfold BasicLatin.lowerUnit.
  destruct ((65 <=? c) && (c <=? 90)) eqn:E; [|reflexivity].
  apply andb_true_iff in E as [E1 E2]. apply N.leb_le in E1, E2.
  exfalso. revert Hc. unfold stable.
  rewrite (proj2 (N.ltb_ge c 65)), (proj2 (N.leb_gt 91 c)),
          (proj2 (N.leb_gt 0x0900 c)), (proj2 (N.eqb_neq c 0x200C)) by lia.
  discriminate.
Qed.

(** A transcript that contains a literal of a category as the table writes
    it still contains one once it is lower-cased and trimmed; this is the
    form in which the properties above speak of the literals of a
    transcript. *)
Lemma spoken_literal_found
  (U : Unicode) (transcript : JS.str) (keywords : Keywords) (lang : JS.str)
  (category : list JS.str) :
  keepsStable U ->
  getCommandKeywords lang = Table keywords ->
  incl category (allLiterals keywords) ->
  containsAny transcript category = true ->
  containsAny (JS.trim (toLowerCase U transcript)) category = true.
Proof.
  intros HU Hk Hincl H.
  apply existsb_exists in H as (k & Hin & Hinc).
  apply existsb_exists. exists k. split; [exact Hin|].
  apply literal_survives; [exact HU | | exact Hinc].
  pose proof (tables_hold_literals _ _ Hk) as Hall.
  rewrite forallb_forall in Hall. apply Hall, Hincl, Hin.
Qed.

(* ------------------------------------------------------------------ *)
(** ** Further properties of the resolver *)

(** *** What [findProductByName] returns is a product of the catalogue *)

Lemma keepBest_product (best : option (Product * Q)) (p : Product) (s : Q)
  (ps : list Product) :
  In p ps ->
  (forall q t, best = Some (q, t) -> In q ps) ->
  forall q t, keepBest best p s = Some (q, t) -> In q ps.
Proof.
  intros Hp Hbest q t. unfold keepBest.
  destruct best as [[b bs]|].
  - destruct (JS.Qlt_bool bs s); intros [= <- <-];
      [exact Hp | exact (Hbest b bs eq_refl)].
  - intros [= <- <-]. exact Hp.
Qed.

Lemma inner_loop_product (score : JS.str -> Q) (p : Product)
  (ps : list Product) (names : list JS.str) :
  In p ps ->
  forall best,
    (forall q t, best = Some (q, t) -> In q ps) ->
    forall q t,
      fold_left (fun best n => keepBest best p (score n)) names best
      = Some (q, t) -> In q ps.
Proof.
  intros Hp. induction names as [|n names IH]; simpl; intros best Hbest.
  - exact Hbest.
  - apply IH. apply keepBest_product; assumption.
Qed.

Lemma outer_loop_product (score : JS.str -> Q) (ps : list Product) :
  forall (l : list Product) best,
    incl l ps ->
    (forall q t, best = Some (q, t) -> In q ps) ->
    forall q t,
      fold_left
        (fun best p =>
           fold_left (fun best n => keepBest best p (score n))
                     (allNames p) best)
        l best = Some (q, t) -> In q ps.
Proof.
  induction l as [|p l IH]; simpl; intros best Hl Hbest.
  - exact Hbest.
  - apply IH.
    + intros x Hx. apply Hl. right. exact Hx.
    + apply inner_loop_product; [apply Hl; left; reflexivity | exact Hbest].
Qed.

Lemma accepted_inv (best : option (Product * Q)) (p : Product) :
  accepted best = Some p ->
  exists s, best = Some (p, s) /\ (threshold <= s)%Q.
Proof.
  unfold accepted. destruct best as [[b s]|]; [|discriminate].
  destruct (Qle_bool threshold s) eqn:E; [|discriminate].
  intros [= <-]. exists s. split; [reflexivity | apply Qle_bool_iff, E].
Qed.

Lemma firstMaximum_In {A : Type} (score : A -> Q) (l : list A) (x : A) :
  firstMaximum score l x -> In x l.
Proof.
  intros (before & after & -> & _). apply in_or_app. right. left. reflexivity.
Qed.

Lemma findProductByName_member
  (U : Unicode) (i18n : option JS.str) (products : list Product)
  (name : JS.str) (language : option JS.str) (p : Product) :
  findProductByName U i18n products name language = Some p ->
  In p products.
Proof.
  unfold findProductByName.
  destruct (negb (JS.truthy name) || _); [discriminate|]. cbv zeta.
  destruct (negb (JS.truthy (normalize U name)) || _); [discriminate|].
  destruct (List.length products =? 0)%nat; [discriminate|].
  destruct (find (barcodeMatches U _) products) as [q|] eqn:E1;
    [intros [= <-]; exact (proj1 (find_some _ _ E1))|].
  destruct (find (exactMatches U i18n _ _) products) as [q|] eqn:E2;
    [intros [= <-]; exact (proj1 (find_some _ _ E2))|].
  destruct (find (containsMatches U i18n _ _) products) as [q|] eqn:E3;
    [intros [= <-]; exact (proj1 (find_some _ _ E3))|].
  destruct (find (anyNameMatches U _) products) as [q|] eqn:E4;
    [intros [= <-]; exact (proj1 (find_some _ _ E4))|].
  destruct (accepted (bestInLanguage U i18n products _ _)) as [q|] eqn:E5.
  - intros [= <-].
    change (bestInLanguage U i18n products
              (tokenSet U (normalize U name))
              (JS.beforeDash (activeLanguage i18n language)))
      with (bestLoop (scoreInLanguage U i18n
                        (tokenSet U (normalize U name))
                        (JS.beforeDash (activeLanguage i18n language)))
                     products None) in E5.
    apply accepted_first_maximum in E5 as [H _].
    exact (firstMaximum_In _ _ _ H).
  - intros H. apply accepted_inv in H as (s & H & _).
    unfold bestAcrossLanguages in H.
    refine (outer_loop_product _ products products None _ _ p s H).
    + apply incl_refl.
    + discriminate.
Qed.

(** X1.  Whatever the name and the language, the product that
    [findProductByName] returns is one of [this.products]. *)
Theorem found_product_is_in_catalogue :
  forall (U : Unicode) (i18n : option JS.str) (products : list Product)
         (name : JS.str) (language : option JS.str) (p : Product),
    findProductByName U i18n products name language = Some p ->
    In p products.
Proof.
  intros U i18n products name language p.
  apply findProductByName_member.
Qed.

Lemma found_product_is_in_catalogue_witness :
  In chips MOCK_PRODUCTS.
Proof.
  apply (found_product_is_in_catalogue basicLatin None MOCK_PRODUCTS
           (JS.js "chips") (Some en) chips).
  vm_compute. reflexivity.
Defined.

(** *** A name in any language resolves *)

Lemma find_some_exists {A : Type} (f : A -> bool) (l : list A) (x : A) :
  In x l -> f x = true -> exists y, find f l = Some y.
Proof.
  intros Hin Hx. destruct (find f l) as [y|] eqn:E; [exists y; reflexivity|].
  rewrite (find_none _ _ E x Hin) in Hx. discriminate.
Qed.

(** X2.  Let [n] be one of the names of a product of the catalogue, in any
    of the five languages, not blank and of at least two characters once
    normalized.  Whatever the active language, [findProductByName] resolves
    [n] to a product of the catalogue, and does so by a barcode or name
    stage, never by a token score. *)
Theorem name_in_any_language_resolves :
  forall (U : Unicode) (i18n : option JS.str) (products : list Product)
         (p : Product) (n : JS.str) (language : option JS.str),
    In p products ->
    In n (allNames p) ->
    JS.trim n <> [] ->
    (2 <= List.length (normalize U n))%nat ->
    exists q,
      findProductByName U i18n products n language = Some q /\
      In q products /\
      matchedByName U i18n n language q.
Proof.
  intros U i18n products p n language Hp Hn Htrim Hlen.
  assert (Hne : n <> []) by (intros ->; apply Htrim; reflexivity).
  unfold findProductByName, matchedByName.
  apply truthy_iff in Hne. rewrite Hne. simpl negb.
  destruct (JS.trim n) as [|c t] eqn:Et; [congruence|].
  cbn [List.length Nat.eqb orb]. cbv zeta.
  destruct (normalize U n) as [|c1 [|c2 t2]] eqn:En;
    [simpl in Hlen; lia | simpl in Hlen; lia |].
  cbn [JS.truthy negb List.length Nat.ltb Nat.leb orb].
  destruct products as [|p0 ps]; [destruct Hp|].
  cbn [List.length Nat.eqb].
  set (products := p0 :: ps) in *.
  destruct (find (barcodeMatches U _) products) as [q|] eqn:E1.
  { exists q. destruct (find_some _ _ E1) as [Hq Hm]. tauto. }
  destruct (find (exactMatches U i18n _ _) products) as [q|] eqn:E2.
  { exists q. destruct (find_some _ _ E2) as [Hq Hm]. tauto. }
  destruct (find (containsMatches U i18n _ _) products) as [q|] eqn:E3.
  { exists q. destruct (find_some _ _ E3) as [Hq Hm]. tauto. }
  assert (Hany : anyNameMatches U (c1 :: c2 :: t2) p = true).
  { unfold anyNameMatches. apply existsb_exists. exists n.
    split; [exact Hn|]. rewrite En, eqb_refl. reflexivity. }
  destruct (find_some_exists _ products p Hp Hany) as [q E4].
  rewrite E4. exists q. destruct (find_some _ _ E4) as [Hq Hm]. tauto.
Qed.

Lemma name_in_any_language_resolves_witness :
  exists q,
    findProductByName basicLatin None (MOCK_PRODUCTS ++ [chai])
                      (JS.js "चाय") (Some en) = Some q /\
    In q (MOCK_PRODUCTS ++ [chai]) /\
    matchedByName basicLatin None (JS.js "चाय") (Some en) q.
Proof.
  apply (name_in_any_language_resolves basicLatin None
           (MOCK_PRODUCTS ++ [chai]) chai (JS.js "चाय") (Some en)).
  - apply in_or_app. right. left. reflexivity.
  - right. left. reflexivity.
  - discriminate.
  - vm_compute. lia.
Defined.

(* ------------------------------------------------------------------ *)
(** ** Further properties of the parser *)

(** *** The amount of an amount-received command *)

Lemma takeWhile_all (f : N -> bool) (s : JS.str) :
  forallb f (JS.takeWhile f s) = true.
Proof.
  induction s as [|c s IH]; simpl; [reflexivity|].
  destruct (f c) eqn:E; simpl; [rewrite E, IH|]; reflexivity.
Qed.

Lemma take_drop (f : N -> bool) (s : JS.str) :
  JS.takeWhile f s ++ JS.dropWhile f s = s.
Proof.
  induction s as [|c s IH]; simpl; [reflexivity|].
  destruct (f c); simpl; [rewrite IH|]; reflexivity.
Qed.

Lemma takeWhile_app (f : N -> bool) (a b : JS.str) :
  forallb f a = true ->
  JS.takeWhile f (a ++ b) = a ++ JS.takeWhile f b.
Proof.
  induction a as [|c a IH]; simpl; [reflexivity|].
  intros H. apply andb_true_iff in H as [Hc Ha]. rewrite Hc, IH; auto.
Qed.

Lemma dropWhile_app (f : N -> bool) (a b : JS.str) :
  forallb f a = true ->
  JS.dropWhile f (a ++ b) = JS.dropWhile f b.
Proof.
  induction a as [|c a IH]; simpl; [reflexivity|].
  intros H. apply andb_true_iff in H as [Hc Ha]. rewrite Hc, IH; auto.
Qed.

Lemma digit_not_comma (c : N) : JS.isDigit c = true -> (c =? 44) = false.
Proof.
  unfold JS.isDigit. intros H. apply andb_true_iff in H as [H1 H2].
  apply N.leb_le in H1, H2. apply N.eqb_neq. lia.
Qed.

Lemma replaceFirstComma_digits (ds tl : JS.str) :
  forallb JS.isDigit ds = true ->
  JS.replaceFirstComma (ds ++ tl) = ds ++ JS.replaceFirstComma tl.
Proof.
  induction ds as [|c ds IH]; simpl; [reflexivity|].
  intros H. apply andb_true_iff in H as [Hc Hd].
  rewrite (digit_not_comma _ Hc), IH; auto.
Qed.

Lemma replaceFirstComma_none (ds : JS.str) :
  forallb JS.isDigit ds = true -> JS.replaceFirstComma ds = ds.
Proof.
  intros H. rewrite <- (app_nil_r ds) at 1.
  rewrite (replaceFirstComma_digits _ _ H). simpl. apply app_nil_r.
Qed.

Lemma separator_dot (sep : N) (tl : JS.str) :
  isSeparator sep = true -> forallb JS.isDigit tl = true ->
  JS.replaceFirstComma (sep :: tl) = 46 :: tl.
Proof.
  unfold isSeparator. intros H Htl. apply orb_true_iff in H as [H|H];
    apply N.eqb_eq in H; subst; simpl; [|reflexivity].
  rewrite (replaceFirstComma_none _ Htl). reflexivity.
Qed.

(** The number read from a run of digits followed by a dot and [fs]. *)
Lemma parseFloat_decimal (ds fs : JS.str) :
  ds <> [] -> forallb JS.isDigit ds = true -> forallb JS.isDigit fs = true ->
  JS.parseFloat (ds ++ match fs with [] => [] | _ => 46 :: fs end)
  = Some (Qred (Z.of_N (JS.digitsValue (ds ++ fs))
                # Z.to_pos (10 ^ Z.of_nat (List.length fs)))).
Proof.
  intros Hne Hds Hfs. unfold JS.parseFloat.
  rewrite (takeWhile_app _ _ _ Hds), (dropWhile_app _ _ _ Hds).
  destruct fs as [|d fs].
  - cbn [JS.takeWhile JS.dropWhile]. rewrite !app_nil_r.
    destruct ds; [congruence|reflexivity].
  - change (JS.takeWhile JS.isDigit (46 :: d :: fs)) with (@nil N).
    change (JS.dropWhile JS.isDigit (46 :: d :: fs)) with (46 :: d :: fs).
    rewrite app_nil_r. cbn [N.eqb Pos.eqb].
    assert (E : JS.takeWhile JS.isDigit (d :: fs) = d :: fs).
    { rewrite <- (app_nil_r (d :: fs)) at 1.
      rewrite (takeWhile_app _ _ _ Hfs). simpl. rewrite app_nil_r.
      reflexivity. }
    change (46 =? 46) with true. cbv iota. rewrite E.
    destruct ds; [congruence|reflexivity].
Qed.

Lemma round_whole (x : Q) (z : Z) : (x == inject_Z z)%Q -> JS.round x = z.
Proof.
  intros H. unfold JS.round.
  rewrite (Qfloor_comp (x + (1 # 2)) (inject_Z z + (1 # 2)))
    by (rewrite H; reflexivity).
  unfold Qfloor, Qplus, inject_Z. simpl.
  symmetry. apply Z.div_unique with (r := 1%Z); lia.
Qed.

(** What the first pattern captures at a digit reads as a whole number of
    hundredths. *)
Lemma capture_hundredths (s : JS.str) (c : N) :
  JS.isDigit c = true ->
  exists z : Z,
    (0 <= z)%Z /\
    exists a : Q,
      JS.parseFloat (JS.replaceFirstComma (captureAmount (c :: s))) = Some a
      /\ (a == z # 100)%Q.
Proof.
  intros Hc.
  pose proof (takeWhile_all JS.isDigit (c :: s)) as Hds.
  assert (Hne : JS.takeWhile JS.isDigit (c :: s) <> [])
    by (simpl; rewrite Hc; discriminate).
  unfold captureAmount.
  set (ds := JS.takeWhile JS.isDigit (c :: s)) in *.
  assert (Hplain :
    exists z : Z, (0 <= z)%Z /\
      exists a, JS.parseFloat (JS.replaceFirstComma ds) = Some a /\
                (a == z # 100)%Q).
  { rewrite (replaceFirstComma_none _ Hds).
    pose proof (parseFloat_decimal ds [] Hne Hds eq_refl) as E.
    rewrite app_nil_r in E. rewrite app_nil_r in E.
    exists (Z.of_N (JS.digitsValue ds) * 100)%Z. split; [lia|].
    eexists. split; [exact E|].
    rewrite Qred_correct. unfold Qeq. simpl. lia. }
  assert (Hfrac : forall sep fs,
    isSeparator sep = true -> forallb JS.isDigit fs = true ->
    (List.length fs = 1 \/ List.length fs = 2)%nat ->
    exists z : Z, (0 <= z)%Z /\
      exists a,
        JS.parseFloat (JS.replaceFirstComma (ds ++ sep :: fs)) = Some a /\
        (a == z # 100)%Q).
  { intros sep fs Hsep Hfs Hlen.
    rewrite (replaceFirstComma_digits _ _ Hds), (separator_dot _ _ Hsep Hfs).
    pose proof (parseFloat_decimal ds fs Hne Hds Hfs) as E.
    destruct fs as [|d1 [|d2 [|d3 fs]]]; simpl in Hlen; try lia.
    - exists (Z.of_N (JS.digitsValue (ds ++ [d1])) * 10)%Z. split; [lia|].
      eexists. split; [exact E|].
      rewrite Qred_correct. unfold Qeq. simpl. lia.
    - exists (Z.of_N (JS.digitsValue (ds ++ [d1; d2]))). split; [lia|].
      eexists. split; [exact E|].
      rewrite Qred_correct. unfold Qeq. simpl. lia. }
  destruct (JS.dropWhile JS.isDigit (c :: s)) as [|sep [|d1 rest]];
    try exact Hplain.
  destruct (isSeparator sep && JS.isDigit d1) eqn:E; [|exact Hplain].
  apply andb_true_iff in E as [Hsep Hd1].
  destruct rest as [|d2 rest'].
  - apply (Hfrac sep [d1] Hsep); [simpl; rewrite Hd1; reflexivity | auto].
  - destruct (JS.isDigit d2) eqn:Hd2.
    + apply (Hfrac sep [d1; d2] Hsep); [simpl; rewrite Hd1, Hd2|]; auto.
    + apply (Hfrac sep [d1] Hsep); [simpl; rewrite Hd1; reflexivity | auto].
Qed.

Lemma matchAmount_inv (text cap : JS.str) :
  matchAmount text = Some cap ->
  exists c s, JS.isDigit c = true /\ cap = captureAmount (c :: s).
Proof.
  induction text as [|c text IH]; simpl; [discriminate|].
  destruct (JS.isDigit c) eqn:E.
  - intros [= <-]. exists c, text. split; [exact E | reflexivity].
  - exact IH.
Qed.

(** An amount that is accepted is positive, at most a million and a whole
    number of hundredths. *)
Lemma cashAmount_sound (text : JS.str) (r : Q) :
  cashAmount text = Some r ->
  (0 < r)%Q /\ (r <= 1000000)%Q /\ exists k : Z, (r == k # 100)%Q.
Proof.
  rewrite cashAmount_first_pattern. unfold amountOf.
  destruct (matchAmount text) as [cap|] eqn:Em; [|discriminate].
  apply matchAmount_inv in Em as (c & s & Hc & ->).
  destruct (capture_hundredths s c Hc) as (z & Hz & a & Ea & Eq).
  rewrite Ea.
  destruct (JS.Qlt_bool 0 a && Qle_bool a 1000000) eqn:Er; [|discriminate].
  apply andb_true_iff in Er as [H0 H1].
  apply Qlt_bool_iff in H0. apply Qle_bool_iff in H1.
  intros [= <-].
  assert (Ew : (a * 100 == inject_Z z)%Q).
  { rewrite Eq. unfold Qeq, Qmult, inject_Z. simpl. lia. }
  rewrite (round_whole _ _ Ew).
  assert (Er : (Qred (inject_Z z / 100) == a)%Q).
  { rewrite Qred_correct, Eq.
    unfold Qeq, Qdiv, Qmult, Qinv, inject_Z. simpl. lia. }
  split; [rewrite Er; exact H0|]. split; [rewrite Er; exact H1|].
  exists z. rewrite Er. exact Eq.
Qed.

Lemma afterAmount_shape
  (U : Unicode) (i18n : option JS.str) (products : list Product)
  (text lang : JS.str) (keywords : Keywords) :
  resultShape products (afterAmount U i18n products text lang keywords).
Proof.
  unfold afterAmount, resultShape.
  destruct (containsAny text (removeLast keywords)); [tauto|].
  destruct (if containsAny text (remove keywords) then _ else None)
    as [p|] eqn:E.
  - do 9 right. left. exists p. split; [reflexivity|].
    destruct (containsAny text (remove keywords)); [|discriminate].
    exact (findProductByName_member _ _ _ _ _ _ E).
  - unfold addCommand.
    pose proof (extractQuantity_range text keywords) as Hq.
    destruct (extractQuantity text keywords) as [q qt].
    destruct (findProductByName _ _ _ _ _) as [p|] eqn:Ef; [|tauto].
    do 10 right. exists p, q. split; [reflexivity|].
    split; [exact (findProductByName_member _ _ _ _ _ _ Ef) | exact Hq].
Qed.

Lemma parse_result_shape
  (U : Unicode) (i18n : option JS.str) (products : list Product)
  (transcript : JS.str) (language : option JS.str) (r : CommandResult) :
  parseVoiceCommand U i18n products transcript language = Return (Some r) ->
  resultShape products r.
Proof.
  unfold parseVoiceCommand.
  destruct (negb (JS.truthy transcript));
    [intros [= <-]; unfold resultShape; tauto|].
  cbv zeta.
  destruct (List.length _ <? 1)%nat;
    [intros [= <-]; unfold resultShape; tauto|].
  destruct (getCommandKeywords _) as [keywords|]; [|discriminate].
  repeat match goal with
         | |- context [if containsAny ?t ?k then Return _ else _] =>
             destruct (containsAny t k);
             [intros [= <-]; unfold resultShape;
              solve [tauto | do 7 right; left; eexists; reflexivity]|]
         end.
  destruct (if containsAny _ (received keywords) then _ else None)
    as [a|] eqn:Ea.
  - intros [= <-]. destruct (containsAny _ (received keywords));
      [|discriminate].
    destruct (cashAmount_sound _ _ Ea) as (H0 & H1 & Hk).
    unfold resultShape. do 8 right. left. exists a. tauto.
  - intros [= <-]. apply afterAmount_shape.
Qed.

(** X3.  In every object that [parseVoiceCommand] returns, a product is a
    product of the catalogue and a quantity lies between 1 and 100; an add
    command has both. *)
Theorem result_product_and_quantity :
  forall (U : Unicode) (i18n : option JS.str) (products : list Product)
         (transcript : JS.str) (language : option JS.str)
         (r : CommandResult),
    parseVoiceCommand U i18n products transcript language = Return (Some r) ->
    (forall p, product r = Some p -> In p products) /\
    (forall q, quantity r = Some q -> 1 <= q <= 100) /\
    (type r = T_add -> product r <> None /\ quantity r <> None).
Proof.
  intros U i18n products transcript language r H.
  apply parse_result_shape in H. unfold resultShape in H.
  repeat destruct H as [H | H];
    try (subst r; simpl; repeat split; intros; discriminate).
  - destruct H as [m ->]. simpl. repeat split; intros; discriminate.
  - destruct H as (a & -> & _). simpl. repeat split; intros; discriminate.
  - destruct H as (p & -> & Hp). simpl.
    repeat split; intros; try discriminate. congruence.
  - destruct H as (p & q & -> & Hp & Hq). simpl.
    repeat split; intros; try discriminate; try congruence.
    + assert (q0 = q) by congruence. subst. apply Hq.
    + assert (q0 = q) by congruence. subst. apply Hq.
Qed.

Lemma result_product_and_quantity_witness :
  (forall p, product (addProduct chips 100) = Some p ->
             In p MOCK_PRODUCTS) /\
  (forall q, quantity (addProduct chips 100) = Some q -> 1 <= q <= 100) /\
  (type (addProduct chips 100) = T_add ->
   product (addProduct chips 100) <> None /\
   quantity (addProduct chips 100) <> None).
Proof.
  apply (result_product_and_quantity basicLatin None MOCK_PRODUCTS
           (JS.js "add 500 chips") (Some en)).
  vm_compute. reflexivity.
Defined.

(** X4.  An object returned by [parseVoiceCommand] has an amount exactly
    when its type is [cash_amount], and the amount is then positive, at most
    1,000,000 and a whole number of hundredths. *)
Theorem result_amount_in_range :
  forall (U : Unicode) (i18n : option JS.str) (products : list Product)
         (transcript : JS.str) (language : option JS.str)
         (r : CommandResult),
    parseVoiceCommand U i18n products transcript language = Return (Some r) ->
    (type r = T_cash_amount <-> amount r <> None) /\
    (forall a, amount r = Some a ->
               (0 < a)%Q /\ (a <= 1000000)%Q /\
               exists k : Z, (a == k # 100)%Q).
Proof.
  intros U i18n products transcript language r H.
  apply parse_result_shape in H. unfold resultShape in H.
  repeat destruct H as [H | H];
    try (subst r; simpl; split;
         [split; [discriminate | congruence] | intros; discriminate]).
  - destruct H as [m ->]. simpl. split;
      [split; [discriminate | congruence] | intros; discriminate].
  - destruct H as (a & -> & H0 & H1 & Hk). simpl. split.
    + split; [discriminate | reflexivity].
    + intros a' [= <-]. tauto.
  - destruct H as (p & -> & _). simpl. split;
      [split; [discriminate | congruence] | intros; discriminate].
  - destruct H as (p & q & -> & _). simpl. split;
      [split; [discriminate | congruence] | intros; discriminate].
Qed.

Lemma result_amount_in_range_witness :
  (type (cashAmountResult (91 # 2)) = T_cash_amount <->
   amount (cashAmountResult (91 # 2)) <> None) /\
  (forall a, amount (cashAmountResult (91 # 2)) = Some a ->
             (0 < a)%Q /\ (a <= 1000000)%Q /\
             exists k : Z, (a == k # 100)%Q).
Proof.
  apply (result_amount_in_range basicLatin None MOCK_PRODUCTS
           (JS.js "received ₹45.5") (Some en)).
  vm_compute. reflexivity.
Defined.

(** X5.  [parseVoiceCommand] never returns [null] and never an object of
    type [print_receipt]; an [unknown] object carries one of the three tags
    [invalid_input], [empty_transcript], [product_not_found]; an object has
    a payment method exactly when its type is [pay_method]. *)
Theorem result_never_null_nor_receipt :
  forall (U : Unicode) (i18n : option JS.str) (products : list Product)
         (transcript : JS.str) (language : option JS.str),
    parseVoiceCommand U i18n products transcript language <> Return None /\
    forall r,
      parseVoiceCommand U i18n products transcript language
      = Return (Some r) ->
      type r <> T_print_receipt /\
      (type r = T_unknown ->
       action r = Some "invalid_input"%string \/
       action r = Some "empty_transcript"%string \/
       action r = Some "product_not_found"%string) /\
      (type r = T_pay_method <-> method r <> None).
Proof.
  intros U i18n products transcript language. split.
  - destruct (parse_returns_unless_inherited U i18n products transcript
                language) as [(r & v & E & _) | [E _]];
      rewrite E; discriminate.
  - intros r H. apply parse_result_shape in H. unfold resultShape in H.
    repeat destruct H as [H | H];
      try (subst r; simpl; split; [discriminate|];
           split; [tauto || (intros; discriminate)
                  | split; [discriminate | congruence]]).
    + destruct H as [m ->]. simpl. split; [discriminate|].
      split; [intros; discriminate | split; [discriminate | reflexivity]].
    + destruct H as (a & -> & _). simpl. split; [discriminate|].
      split; [intros; discriminate | split; [discriminate | congruence]].
    + destruct H as (p & -> & _). simpl. split; [discriminate|].
      split; [intros; discriminate | split; [discriminate | congruence]].
    + destruct H as (p & q & -> & _). simpl. split; [discriminate|].
      split; [intros; discriminate | split; [discriminate | congruence]].
Qed.

Lemma result_never_null_nor_receipt_witness :
  type (plain T_unknown "product_not_found") <> T_print_receipt /\
  (type (plain T_unknown "product_not_found") = T_unknown ->
   action (plain T_unknown "product_not_found")
   = Some "invalid_input"%string \/
   action (plain T_unknown "product_not_found")
   = Some "empty_transcript"%string \/
   action (plain T_unknown "product_not_found")
   = Some "product_not_found"%string) /\
  (type (plain T_unknown "product_not_found") = T_pay_method <->
   method (plain T_unknown "product_not_found") <> None).
Proof.
  apply (proj2 (result_never_null_nor_receipt basicLatin None MOCK_PRODUCTS
                  (JS.js "asdkjasjkd") (Some en))).
  vm_compute. reflexivity.
Defined.

(** *** The two amount patterns; the primary subtag of the language *)

(** X6.  The second amount pattern, the one that allows a currency sign,
    captures exactly what the first one captures, so the amount of the
    amount-received branch is always the one of the first pattern: the
    second attempt never accepts an amount that the first did not. *)
Theorem currency_pattern_adds_nothing :
  forall text : JS.str,
    matchCurrency text = matchAmount text /\
    cashAmount text = amountOf (matchAmount text).
Proof.
  intros text. split.
  - apply matchCurrency_matchAmount.
  - apply cashAmount_first_pattern.
Qed.

Lemma findProductByName_subtag
  (U : Unicode) (i18n : option JS.str) (products : list Product)
  (n l1 l2 : JS.str) :
  JS.beforeDash l1 = JS.beforeDash l2 -> JS.beforeDash l1 <> [] ->
  findProductByName U i18n products n (Some l1)
  = findProductByName U i18n products n (Some l2).
Proof.
  intros E H1. assert (H2 : JS.beforeDash l2 <> []) by congruence.
  unfold findProductByName.
  rewrite (activeLanguage_given i18n l1 (beforeDash_given _ H1)).
  rewrite (activeLanguage_given i18n l2 (beforeDash_given _ H2)).
  rewrite E. reflexivity.
Qed.

Lemma getCommandKeywords_subtag (l1 l2 : JS.str) :
  JS.beforeDash l1 = JS.beforeDash l2 ->
  getCommandKeywords l1 = getCommandKeywords l2.
Proof. intros E. unfold getCommandKeywords. rewrite E. reflexivity. Qed.

Lemma afterAmount_subtag
  (U : Unicode) (i18n : option JS.str) (products : list Product)
  (text l1 l2 : JS.str) (keywords : Keywords) :
  JS.beforeDash l1 = JS.beforeDash l2 -> JS.beforeDash l1 <> [] ->
  afterAmount U i18n products text l1 keywords
  = afterAmount U i18n products text l2 keywords.
Proof.
  intros E H1. unfold afterAmount, removeTarget, addCommand.
  destruct (extractQuantity text keywords) as [q qt].
  rewrite !(findProductByName_subtag U i18n products _ l1 l2 E H1).
  reflexivity.
Qed.

(** X7.  Two language codes with the same part before the first dash (such
    as "hi" and "hi-IN") are treated alike: the parser gives the same
    completion for both, on every transcript and catalogue. *)
Theorem region_subtag_is_ignored :
  forall (U : Unicode) (i18n : option JS.str) (products : list Product)
         (transcript l1 l2 : JS.str),
    JS.beforeDash l1 = JS.beforeDash l2 ->
    JS.beforeDash l1 <> [] ->
    parseVoiceCommand U i18n products transcript (Some l1)
    = parseVoiceCommand U i18n products transcript (Some l2).
Proof.
  intros U i18n products transcript l1 l2 E H1.
  assert (H2 : JS.beforeDash l2 <> []) by congruence.
  unfold parseVoiceCommand.
  rewrite (activeLanguage_given i18n l1 (beforeDash_given _ H1)).
  rewrite (activeLanguage_given i18n l2 (beforeDash_given _ H2)).
  rewrite (getCommandKeywords_subtag l1 l2 E).
  destruct (getCommandKeywords l2) as [keywords|]; [|reflexivity].
  rewrite (afterAmount_subtag U i18n products _ l1 l2 keywords E H1).
  reflexivity.
Qed.

Lemma region_subtag_is_ignored_witness :
  parseVoiceCommand basicLatin None MOCK_PRODUCTS (JS.js "बिल नकद")
                    (Some (JS.js "hi-IN"))
  = parseVoiceCommand basicLatin None MOCK_PRODUCTS (JS.js "बिल नकद")
                      (Some (JS.js "hi")).
Proof.
  apply (region_subtag_is_ignored basicLatin None MOCK_PRODUCTS
           (JS.js "बिल नकद") (JS.js "hi-IN") (JS.js "hi")).
  - reflexivity.
  - discriminate.
Defined.

(* ------------------------------------------------------------------ *)
(** ** Further properties of the text helpers *)

(** *** The Jaccard score *)

Lemma fold_setAdd_In (l : list JS.str) :
  forall acc x, In x (fold_left setAdd l acc) <-> In x acc \/ In x l.
Proof.
  induction l as [|y l IH]; intros acc x; simpl; [tauto|].
  rewrite IH. unfold setAdd. destruct (has acc y) eqn:E.
  - apply has_In in E. split; [tauto|].
    intros [H | [<- | H]]; tauto.
  - rewrite in_app_iff. simpl. tauto.
Qed.

Lemma newSet_In (l : list JS.str) (x : JS.str) : In x (newSet l) <-> In x l.
Proof. unfold newSet. rewrite fold_setAdd_In. simpl. tauto. Qed.

Lemma of_nat_pos (n : nat) : n <> O -> Z.pos (Pos.of_nat n) = Z.of_nat n.
Proof.
  intros H. rewrite <- (Nat2Pos.id n H) at 2.
  symmetry. apply positive_nat_Z.
Qed.

(** X8.  The score of any two token lists lies between 0 and 1. *)
Theorem jaccard_between_0_and_1 :
  forall a b : list JS.str, (0 <= jaccard a b)%Q /\ (jaccard a b <= 1)%Q.
Proof.
  intros a b. unfold jaccard.
  destruct (List.length (newSet (a ++ b)) =? 0)%nat eqn:E.
  - split; [apply Qle_refl | discriminate].
  - apply Nat.eqb_neq in E.
    assert (Hle : (List.length (newSet (filter (fun x => has b x) a))
                   <= List.length (newSet (a ++ b)))%nat).
    { apply NoDup_incl_length; [apply newSet_NoDup|].
      intros x Hx. apply (proj1 (newSet_In _ _)) in Hx.
      apply (proj2 (newSet_In _ _)).
      apply filter_In in Hx as [Hx _]. apply in_or_app. left. exact Hx. }
    unfold Qle. simpl. rewrite (of_nat_pos _ E). lia.
Qed.

Lemma shared_le (a b : list JS.str) :
  NoDup a -> NoDup b -> (shared a b <= shared b a)%nat.
Proof.
  intros Ha Hb. unfold shared.
  apply NoDup_incl_length; [apply NoDup_filter, Ha|].
  intros x Hx. apply filter_In in Hx as [Hx Hm]. apply has_In in Hm.
  apply filter_In. split; [exact Hm | apply has_In, Hx].
Qed.

Lemma shared_comm (a b : list JS.str) :
  NoDup a -> NoDup b -> shared a b = shared b a.
Proof.
  intros Ha Hb. apply Nat.le_antisymm; apply shared_le; assumption.
Qed.

Lemma distinct_shared (a b : list JS.str) :
  (distinct a b + shared b a = List.length a + List.length b)%nat.
Proof.
  unfold distinct, shared.
  pose proof (filter_length (fun x => has a x) b). lia.
Qed.

(** X9.  On token sets the score does not depend on the order of its two
    arguments, and a non-empty set scores 1 against itself. *)
Theorem jaccard_symmetric_and_reflexive :
  forall a b : list JS.str,
    NoDup a -> NoDup b ->
    jaccard a b = jaccard b a /\
    (a <> [] -> (jaccard a a == 1)%Q).
Proof.
  intros a b Ha Hb. split.
  - rewrite (jaccard_ratio a b Ha Hb), (jaccard_ratio b a Hb Ha).
    unfold ratio.
    pose proof (distinct_shared a b) as D1.
    pose proof (distinct_shared b a) as D2.
    pose proof (shared_comm a b Ha Hb) as S.
    assert (E : distinct a b = distinct b a) by lia.
    rewrite E, S. reflexivity.
  - intros Hne. rewrite (jaccard_ratio a a Ha Ha). unfold ratio.
    assert (Hs : shared a a = List.length a).
    { unfold shared.
      pose proof (filter_length (fun x => has a x) a) as F.
      cbv beta in F.
      assert (E : filter (fun x => negb (has a x)) a = []).
      { destruct (filter (fun x => negb (has a x)) a) as [|x l] eqn:Ef;
          [reflexivity|].
        assert (Hx : In x (filter (fun x => negb (has a x)) a))
          by (rewrite Ef; left; reflexivity).
        apply filter_In in Hx as [Hx Hn].
        rewrite (proj2 (has_In a x) Hx) in Hn. discriminate. }
      rewrite E in F. simpl in F. lia. }
    pose proof (distinct_shared a a) as Hd. rewrite Hs in Hd.
    assert (Hd' : distinct a a = List.length a) by lia.
    rewrite Hd', Hs.
    assert (Hl : List.length a <> O) by (destruct a; simpl; congruence).
    apply Nat.eqb_neq in Hl. rewrite Hl. apply Nat.eqb_neq in Hl.
    unfold Qeq. simpl. rewrite (of_nat_pos _ Hl). lia.
Qed.

Lemma jaccard_symmetric_and_reflexive_witness :
  jaccard (tokenSet basicLatin (JS.js "red green blue"))
          (tokenSet basicLatin (JS.js "red green black white"))
  = jaccard (tokenSet basicLatin (JS.js "red green black white"))
            (tokenSet basicLatin (JS.js "red green blue")).
Proof.
  apply (proj1 (jaccard_symmetric_and_reflexive
                  (tokenSet basicLatin (JS.js "red green blue"))
                  (tokenSet basicLatin (JS.js "red green black white"))
                  (tokenSet_NoDup _ _) (tokenSet_NoDup _ _))).
Defined.

(** *** The shape of a normalized text and of its tokens *)

Lemma space_runs_only_space (s : JS.str) :
  forall inRun c,
    In c (JS.replaceSpaceRuns_from inRun 32 s) ->
    JS.isWhiteSpace c = true -> c = 32.
Proof.
  induction s as [|x s IH]; intros inRun c; simpl; [tauto|].
  destruct (JS.isWhiteSpace x) eqn:Ex.
  - intros Hin Hc. apply in_app_or in Hin as [Hin | Hin].
    + destruct inRun; [destruct Hin|].
      destruct Hin as [<- | []]. reflexivity.
    + exact (IH _ _ Hin Hc).
  - intros [<- | Hin] Hc; [congruence | exact (IH _ _ Hin Hc)].
Qed.

Lemma space_runs_single (s : JS.str) :
  (JS.includes (JS.replaceSpaceRuns_from true 32 s) [32; 32] = false /\
   JS.startsWith [32] (JS.replaceSpaceRuns_from true 32 s) = false) /\
  JS.includes (JS.replaceSpaceRuns_from false 32 s) [32; 32] = false.
Proof.
  induction s as [|x s [[IH1 IH2] IH3]]; [repeat split; reflexivity|].
  cbn [JS.replaceSpaceRuns_from].
  destruct (JS.isWhiteSpace x) eqn:Ex.
  - cbn [app]. split; [split; assumption|].
    cbn [JS.includes JS.startsWith]. rewrite IH1.
    destruct (JS.replaceSpaceRuns_from true 32 s) as [|y t];
      [reflexivity|].
    cbn [JS.startsWith] in *. rewrite andb_true_r in IH2.
    rewrite IH2. reflexivity.
  - assert (Hx : (32 =? x) = false).
    { apply N.eqb_neq. intros <-. discriminate Ex. }
    cbn [JS.includes JS.startsWith]. rewrite Hx, IH3.
    repeat split; reflexivity.
Qed.

Lemma trim_middle (s : JS.str) : exists a b, s = a ++ JS.trim s ++ b.
Proof.
  unfold JS.trim.
  exists (JS.takeWhile JS.isWhiteSpace s),
         (rev (JS.takeWhile JS.isWhiteSpace
                 (rev (JS.dropWhile JS.isWhiteSpace s)))).
  rewrite <- rev_app_distr, take_drop, rev_involutive, take_drop.
  reflexivity.
Qed.

Lemma dropWhile_head (f : N -> bool) (s : JS.str) (c : N) (t : JS.str) :
  JS.dropWhile f s = c :: t -> f c = false.
Proof.
  induction s as [|x s IH]; simpl; [discriminate|].
  destruct (f x) eqn:E; [exact IH|]. intros [= <- _]. exact E.
Qed.

Lemma trim_ends (s : JS.str) :
  match JS.trim s with
  | c :: _ => JS.isWhiteSpace c = false
  | [] => True
  end /\
  match rev (JS.trim s) with
  | c :: _ => JS.isWhiteSpace c = false
  | [] => True
  end.
Proof.
  split.
  - destruct (JS.trim s) as [|c t] eqn:E; [exact I|].
    unfold JS.trim in E.
    pose proof (take_drop JS.isWhiteSpace
                  (rev (JS.dropWhile JS.isWhiteSpace s))) as H.
    apply (f_equal (@rev N)) in H.
    rewrite rev_app_distr, rev_involutive, E in H.
    simpl in H. symmetry in H.
    exact (dropWhile_head _ _ _ _ H).
  - unfold JS.trim. rewrite rev_involutive.
    destruct (JS.dropWhile JS.isWhiteSpace
                (rev (JS.dropWhile JS.isWhiteSpace s))) as [|c t] eqn:E;
      [exact I|].
    exact (dropWhile_head _ _ _ _ E).
Qed.

Lemma includes_middle (a m b p : JS.str) :
  JS.includes (a ++ m ++ b) p = false -> JS.includes m p = false.
Proof.
  intros H. destruct (JS.includes m p) eqn:E; [|reflexivity].
  apply includes_iff in E as (x & y & ->).
  assert (Hc : JS.includes (a ++ (x ++ p ++ y) ++ b) p = true).
  { apply includes_iff. exists (a ++ x), (y ++ b).
    rewrite <- !app_assoc. reflexivity. }
  congruence.
Qed.

Lemma normalize_only_spaces (U : Unicode) (text : JS.str) (c : N) :
  In c (normalize U text) -> JS.isWhiteSpace c = true -> c = 32.
Proof.
  unfold normalize. intros Hc.
  destruct (trim_middle
              (JS.replaceSpaceRuns 32 (blankPunct U (toLowerCase U text))))
    as (a & b & Ew).
  apply (space_runs_only_space (blankPunct U (toLowerCase U text)) false c).
  change (In c (JS.replaceSpaceRuns 32
                  (blankPunct U (toLowerCase U text)))).
  rewrite Ew. apply in_or_app. right. apply in_or_app. left. exact Hc.
Qed.

(** X10.  A normalized text is a sequence of words separated by single
    U+0020 spaces: it holds no other white space, no two spaces in a row,
    and neither begins nor ends with white space. *)
Theorem normalize_shape :
  forall (U : Unicode) (text : JS.str),
    (forall c, In c (normalize U text) ->
               JS.isWhiteSpace c = true -> c = 32) /\
    JS.includes (normalize U text) [32; 32] = false /\
    match normalize U text with
    | c :: _ => JS.isWhiteSpace c = false
    | [] => True
    end /\
    match rev (normalize U text) with
    | c :: _ => JS.isWhiteSpace c = false
    | [] => True
    end.
Proof.
  intros U text.
  split; [intros c; apply normalize_only_spaces|].
  unfold normalize.
  set (w := JS.replaceSpaceRuns 32 (blankPunct U (toLowerCase U text))).
  destruct (trim_middle w) as (a & b & Ew).
  split; [|apply trim_ends].
  apply (includes_middle a _ b). rewrite <- Ew.
  apply (proj2 (space_runs_single _)).
Qed.

Lemma piece_forall (P : N -> Prop) (s : JS.str) :
  forall cur p,
    (forall c, In c cur -> P c) ->
    (forall c, In c s -> c <> 32 -> P c) ->
    In p (JS.splitSpace_from cur s) ->
    forall c, In c p -> P c.
Proof.
  induction s as [|x s IH]; intros cur p Hcur Hs; simpl.
  - intros [<- | []] c Hc. apply Hcur. apply in_rev. exact Hc.
  - destruct (x =? 32) eqn:Ex.
    + intros [<- | Hin].
      * intros c Hc. apply Hcur. apply in_rev. exact Hc.
      * apply (IH [] p); [intros c [] | | exact Hin].
        intros c Hc. apply Hs. right. exact Hc.
    + apply N.eqb_neq in Ex. apply IH.
      * intros c [<- | Hc]; [apply Hs; [left; reflexivity | exact Ex]|].
        apply Hcur, Hc.
      * intros c Hc. apply Hs. right. exact Hc.
Qed.

(** X11.  The token set of a string has no duplicates, and each of its
    tokens is non-empty and holds no white space. *)
Theorem tokenSet_tokens :
  forall (U : Unicode) (s : JS.str),
    NoDup (tokenSet U s) /\
    forall t, In t (tokenSet U s) ->
              t <> [] /\ forall c, In c t -> JS.isWhiteSpace c = false.
Proof.
  intros U s. split; [apply tokenSet_NoDup|].
  intros t Ht. unfold tokenSet in Ht.
  apply (proj1 (newSet_In _ _)) in Ht.
  apply filter_In in Ht as [Hin Htruthy].
  split; [apply truthy_iff, Htruthy|].
  apply (piece_forall (fun c => JS.isWhiteSpace c = false)
           (normalize U s) [] t); [intros c [] | | exact Hin].
  intros c Hc Hne.
  destruct (JS.isWhiteSpace c) eqn:Ew; [|reflexivity].
  exfalso. apply Hne.
  exact (normalize_only_spaces U s c Hc Ew).
Qed.

(* ------------------------------------------------------------------ *)
(** ** Search and lookup *)

Lemma includes_refl (s : JS.str) : JS.includes s s = true.
Proof.
  apply includes_iff. exists [], []. rewrite app_nil_r. reflexivity.
Qed.

Lemma includes_trans (a b c : JS.str) :
  JS.includes a b = true -> JS.includes b c = true ->
  JS.includes a c = true.
Proof.
  intros Hab Hbc.
  apply includes_iff in Hab as (x & y & ->).
  apply includes_iff in Hbc as (x' & y' & ->).
  apply includes_iff. exists (x ++ x'), (y' ++ y).
  rewrite <- !app_assoc. reflexivity.
Qed.

(** X12.  Searching for the name under which a product is displayed in the
    active language, or for its category, lists that product. *)
Theorem search_finds_name_and_category :
  forall (U : Unicode) (i18n : option JS.str) (products : list Product)
         (p : Product) (language : option JS.str),
    In p products ->
    In p (searchProducts U i18n products
            (getProductNameInLanguage
               i18n p (Some (JS.beforeDash (activeLanguage i18n language))))
            language) /\
    In p (searchProducts U i18n products (category p) language).
Proof.
  intros U i18n products p language Hp. unfold searchProducts.
  split; apply filter_In; (split; [exact Hp|]); cbv zeta;
    rewrite includes_refl; [reflexivity|].
  rewrite orb_true_r. reflexivity.
Qed.

Lemma search_finds_name_and_category_witness :
  In chips (searchProducts basicLatin None MOCK_PRODUCTS (JS.js "Chips")
                           (Some en)) /\
  In chips (searchProducts basicLatin None MOCK_PRODUCTS (JS.js "Snacks")
                           (Some en)).
Proof.
  apply (search_finds_name_and_category basicLatin None MOCK_PRODUCTS chips
           (Some en)).
  do 4 right. left. reflexivity.
Defined.

Lemma nameIncludes_narrow (U : Unicode) (q1 q2 : JS.str)
  (n : option JS.str) :
  JS.includes q2 q1 = true ->
  nameIncludes U q2 n = true -> nameIncludes U q1 n = true.
Proof.
  intros Hq. destruct n as [n|]; simpl; [|discriminate].
  intros H. apply andb_true_iff in H as [Ht Hi].
  rewrite Ht, (includes_trans _ _ _ Hi Hq). reflexivity.
Qed.

(** X13.  Making a query longer never adds results: when the lower-cased
    query [q1] is part of the lower-cased query [q2], every product listed
    for [q2] is listed for [q1]. *)
Theorem search_narrows :
  forall (U : Unicode) (i18n : option JS.str) (products : list Product)
         (q1 q2 : JS.str) (language : option JS.str),
    JS.includes (toLowerCase U q2) (toLowerCase U q1) = true ->
    incl (searchProducts U i18n products q2 language)
         (searchProducts U i18n products q1 language).
Proof.
  intros U i18n products q1 q2 language Hq p Hp.
  unfold searchProducts in *. apply filter_In in Hp as [Hp Hm].
  apply filter_In. split; [exact Hp|]. cbv zeta in *.
  repeat rewrite orb_true_iff in Hm. repeat rewrite orb_true_iff.
  pose proof (fun a H => includes_trans a _ _ H Hq) as T.
  pose proof (nameIncludes_narrow U _ _ (Some (name_en p)) Hq) as N1.
  pose proof (nameIncludes_narrow U _ _ (name_kn p) Hq) as N2.
  pose proof (nameIncludes_narrow U _ _ (name_ml p) Hq) as N3.
  pose proof (nameIncludes_narrow U _ _ (name_ta p) Hq) as N4.
  pose proof (nameIncludes_narrow U _ _ (name_hi p) Hq) as N5.
  intuition.
Qed.

Lemma search_narrows_witness :
  incl (searchProducts basicLatin None MOCK_PRODUCTS (JS.js "Choco")
                       (Some en))
       (searchProducts basicLatin None MOCK_PRODUCTS (JS.js "ch") (Some en)).
Proof.
  apply (search_narrows basicLatin None MOCK_PRODUCTS (JS.js "ch")
           (JS.js "Choco") (Some en)).
  vm_compute. reflexivity.
Defined.

(** X14.  [getProductById] returns a product of the catalogue with the
    identifier asked for, and when the identifiers of the catalogue are
    pairwise distinct it returns each product for its own identifier. *)
Theorem getProductById_round_trip :
  forall (products : list Product),
    (forall i p, getProductById products i = Some p ->
                 In p products /\ id p = i) /\
    (NoDup (map id products) ->
     forall p, In p products -> getProductById products (id p) = Some p).
Proof.
  intros products. unfold getProductById. split.
  - intros i p H. apply find_some in H as [Hin He].
    split; [exact Hin | apply eqb_eq, He].
  - induction products as [|x l IH]; intros Hnd p Hp; [destruct Hp|].
    simpl in Hnd. inversion Hnd as [|? ? Hx Hl]; subst.
    simpl. destruct Hp as [-> | Hp].
    + rewrite eqb_refl. reflexivity.
    + destruct (JS.eqb (id x) (id p)) eqn:E; [|exact (IH Hl p Hp)].
      apply eqb_eq in E. exfalso. apply Hx. rewrite E.
      apply in_map. exact Hp.
Qed.

Lemma getProductById_round_trip_witness :
  getProductById MOCK_PRODUCTS (id chips) = Some chips.
Proof.
  apply (proj2 (getProductById_round_trip MOCK_PRODUCTS)).
  - vm_compute.
    repeat (constructor;
            [simpl; intuition discriminate|]).
    constructor.
  - do 4 right. left. reflexivity.
Defined.

(* ------------------------------------------------------------------ *)
(** ** Bills *)

Lemma round_bounds (y : Q) :
  (inject_Z (JS.round y) <= y + (1 # 2))%Q /\
  (y - (1 # 2) < inject_Z (JS.round y))%Q.
Proof.
  unfold JS.round.
  pose proof (Qfloor_le (y + (1 # 2))) as H1.
  pose proof (Qlt_floor (y + (1 # 2))) as H2.
  rewrite inject_Z_plus in H2. split; [exact H1|].
  change (inject_Z 1) with 1%Q in H2. lra.
Qed.

Lemma roundCents_value (x : Q) :
  (Billing.roundCents x == inject_Z (JS.round (x * 100)) * (1 # 100))%Q.
Proof. unfold Billing.roundCents. rewrite Qred_correct. reflexivity. Qed.

Lemma roundCents_near (x : Q) :
  (Billing.roundCents x <= x + (1 # 200))%Q /\
  (x - (1 # 200) < Billing.roundCents x)%Q.
Proof.
  rewrite roundCents_value.
  destruct (round_bounds (x * 100)) as [H1 H2].
  set (r := inject_Z (JS.round (x * 100))) in *.
  split; lra.
Qed.

Lemma roundCents_cents (x : Q) :
  exists k : Z, (Billing.roundCents x == k # 100)%Q.
Proof.
  exists (JS.round (x * 100)). rewrite roundCents_value.
  set (z := JS.round (x * 100)).
  unfold Qeq, Qmult, inject_Z. simpl. lia.
Qed.

Lemma roundCents_nonneg (x : Q) : (0 <= x)%Q -> (0 <= Billing.roundCents x)%Q.
Proof.
  intros H. rewrite roundCents_value.
  assert (Hz : (0 <= JS.round (x * 100))%Z).
  { unfold JS.round. change 0%Z with (Qfloor 0).
    apply Qfloor_resp_le. lra. }
  set (z := JS.round (x * 100)) in *.
  unfold Qle, Qmult, inject_Z. simpl. lia.
Qed.

Lemma roundCents_whole (x : Q) (k : Z) :
  (x == k # 100)%Q -> (Billing.roundCents x == x)%Q.
Proof.
  intros H. rewrite roundCents_value.
  assert (E : (x * 100 == inject_Z k)%Q).
  { rewrite H. unfold Qeq, Qmult, inject_Z. simpl. lia. }
  rewrite (round_whole _ _ E), H.
  unfold Qeq, Qmult, inject_Z. simpl. lia.
Qed.

Lemma sumTotals_from (l : list Billing.CartItem) :
  forall acc,
    (fold_left (fun sum item => sum + Billing.totalPrice item) l acc
     == acc + Billing.sumTotals l)%Q.
Proof.
  unfold Billing.sumTotals.
  induction l as [|x l IH]; intros acc; simpl.
  - lra.
  - rewrite (IH (acc + Billing.totalPrice x)%Q).
    rewrite (IH (0 + Billing.totalPrice x)%Q). lra.
Qed.

Lemma sumTotals_cons (x : Billing.CartItem) (l : list Billing.CartItem) :
  (Billing.sumTotals (x :: l) == Billing.totalPrice x + Billing.sumTotals l)%Q.
Proof.
  unfold Billing.sumTotals at 1. simpl. rewrite sumTotals_from. lra.
Qed.

Lemma valid_total (x : Billing.CartItem) :
  Billing.validItem x = true ->
  (0 < Billing.quantity x)%Q /\ (0 <= Billing.totalPrice x)%Q /\
  (0 <= price (Billing.product x))%Q.
Proof.
  unfold Billing.validItem. intros H.
  apply andb_true_iff in H as [H H3]. apply andb_true_iff in H as [H1 H2].
  apply Qlt_bool_iff in H1. apply Qle_bool_iff in H2, H3. tauto.
Qed.

Lemma sumTotals_nonneg (l : list Billing.CartItem) :
  forallb Billing.validItem l = true -> (0 <= Billing.sumTotals l)%Q.
Proof.
  induction l as [|x l IH]; intros H.
  - unfold Billing.sumTotals. simpl. lra.
  - simpl in H. apply andb_true_iff in H as [Hx Hl].
    rewrite sumTotals_cons. pose proof (IH Hl).
    destruct (valid_total x Hx) as (_ & Ht & _). lra.
Qed.

Lemma filter_all {A : Type} (f : A -> bool) (l : list A) :
  forallb f (filter f l) = true.
Proof.
  induction l as [|x l IH]; simpl; [reflexivity|].
  destruct (f x) eqn:E; simpl; [rewrite E, IH|]; auto.
Qed.

Lemma createBill_inv
  (bills : list Billing.Bill) (freshId : JS.str) (now : Z)
  (items : list Billing.CartItem) (cashierId : JS.str)
  (bill : Billing.Bill) (bills' : list Billing.Bill) :
  Billing.createBill bills freshId now items cashierId
  = Billing.Done (bill, bills') ->
  bill = {| Billing.id := freshId;
            Billing.items := filter Billing.validItem items;
            Billing.subtotal :=
              Billing.sumTotals (filter Billing.validItem items);
            Billing.tax :=
              Billing.roundCents
                (Billing.sumTotals (filter Billing.validItem items)
                 * (8 # 100));
            Billing.total :=
              Billing.roundCents
                (Billing.sumTotals (filter Billing.validItem items)
                 + Billing.roundCents
                     (Billing.sumTotals (filter Billing.validItem items)
                      * (8 # 100)));
            Billing.timestamp := now;
            Billing.cashierId := cashierId;
            Billing.paymentMethod := None |} /\
  bills' = bills ++ [bill].
Proof.
  unfold Billing.createBill.
  destruct (List.length items =? 0)%nat; [discriminate|].
  destruct (negb (JS.truthy cashierId)); [discriminate|].
  destruct (List.length (filter Billing.validItem items) =? 0)%nat;
    [discriminate|].
  cbv zeta. destruct (_ || _); [discriminate|].
  intros [= <- <-]. split; reflexivity.
Qed.

Lemma totals_not_negative (l : list Billing.CartItem) :
  forallb Billing.validItem l = true ->
  JS.Qlt_bool (Billing.sumTotals l) 0 ||
  JS.Qlt_bool
    (Billing.roundCents
       (Billing.sumTotals l
        + Billing.roundCents (Billing.sumTotals l * (8 # 100)))) 0
  = false.
Proof.
  intros H. pose proof (sumTotals_nonneg l H) as Hs.
  assert (Ht : (0 <= Billing.roundCents (Billing.sumTotals l * (8 # 100)))%Q)
    by (apply roundCents_nonneg; lra).
  assert (Hto : (0 <= Billing.roundCents
                        (Billing.sumTotals l
                         + Billing.roundCents
                             (Billing.sumTotals l * (8 # 100))))%Q)
    by (apply roundCents_nonneg; lra).
  apply orb_false_iff. split.
  - destruct (JS.Qlt_bool (Billing.sumTotals l) 0) eqn:E; [|reflexivity].
    apply Qlt_bool_iff in E. lra.
  - destruct (JS.Qlt_bool _ 0) eqn:E; [|reflexivity].
    apply Qlt_bool_iff in E. lra.
Qed.

(** X15.  [createBill] throws in three cases only, tested in this order:
    no items, an empty cashier identifier, no item that passes the validity
    test.  Otherwise it returns a bill; the check of the totals at its end
    never fires. *)
Theorem createBill_failure_causes :
  forall (bills : list Billing.Bill) (freshId : JS.str) (now : Z)
         (items : list Billing.CartItem) (cashierId : JS.str),
    match Billing.createBill bills freshId now items cashierId with
    | Billing.Failed m =>
        (items = [] /\ m = "Cannot create bill with empty items"%string) \/
        (items <> [] /\ cashierId = [] /\
         m = "Invalid cashier ID"%string) \/
        (items <> [] /\ cashierId <> [] /\
         filter Billing.validItem items = [] /\
         m = "No valid items in cart"%string)
    | Billing.Done _ =>
        items <> [] /\ cashierId <> [] /\
        filter Billing.validItem items <> []
    end.
Proof.
  intros bills freshId now items cashierId. unfold Billing.createBill.
  destruct items as [|i0 items]; [left; split; reflexivity|].
  cbn [List.length Nat.eqb].
  destruct cashierId as [|c0 cashierId];
    [right; left; repeat split; discriminate|].
  cbn [JS.truthy negb].
  destruct (filter Billing.validItem (i0 :: items)) as [|v vs] eqn:Ev.
  - right; right. repeat split; discriminate.
  - cbn [List.length Nat.eqb]. cbv zeta.
    rewrite totals_not_negative
      by (rewrite <- Ev; apply filter_all).
    repeat split; discriminate.
Qed.

(** X16.  A bill that [createBill] returns is appended to the bills of the
    service and holds exactly the items that pass the validity test, in
    their order: each has a positive quantity, a total price and a product
    price that are not negative.  The cashier and the time are the ones
    given. *)
Theorem createBill_keeps_valid_items :
  forall (bills : list Billing.Bill) (freshId : JS.str) (now : Z)
         (items : list Billing.CartItem) (cashierId : JS.str)
         (bill : Billing.Bill) (bills' : list Billing.Bill),
    Billing.createBill bills freshId now items cashierId
    = Billing.Done (bill, bills') ->
    bills' = bills ++ [bill] /\
    Billing.items bill = filter Billing.validItem items /\
    (forall item, In item (Billing.items bill) ->
                  In item items /\
                  (0 < Billing.quantity item)%Q /\
                  (0 <= Billing.totalPrice item)%Q /\
                  (0 <= price (Billing.product item))%Q) /\
    Billing.cashierId bill = cashierId /\
    Billing.timestamp bill = now /\
    Billing.id bill = freshId.
Proof.
  intros bills freshId now items cashierId bill bills' H.
  apply createBill_inv in H as [-> ->]. cbn.
  repeat split; try reflexivity;
    apply filter_In in H as [Hin Hv];
    try exact Hin; apply (valid_total item Hv).
Qed.

(** X17.  The amounts of a bill: the subtotal is the sum of the item totals
    and is not negative; the tax is a whole number of cents within half a
    cent of 8% of the subtotal; the total is a whole number of cents within
    half a cent of subtotal plus tax, and equals subtotal plus tax when the
    subtotal is a whole number of cents. *)
Theorem createBill_amounts :
  forall (bills : list Billing.Bill) (freshId : JS.str) (now : Z)
         (items : list Billing.CartItem) (cashierId : JS.str)
         (bill : Billing.Bill) (bills' : list Billing.Bill),
    Billing.createBill bills freshId now items cashierId
    = Billing.Done (bill, bills') ->
    let s := Billing.subtotal bill in
    let t := Billing.tax bill in
    let tt := Billing.total bill in
    (s = Billing.sumTotals (Billing.items bill) /\ 0 <= s)%Q /\
    (0 <= t /\ t <= s * (8 # 100) + (1 # 200) /\
     s * (8 # 100) - (1 # 200) < t /\ exists k : Z, t == k # 100)%Q /\
    (0 <= tt /\ tt <= s + t + (1 # 200) /\ s + t - (1 # 200) < tt /\
     exists k : Z, tt == k # 100)%Q /\
    ((exists k : Z, s == k # 100) -> tt == s + t)%Q.
Proof.
  intros bills freshId now items cashierId bill bills' H.
  apply createBill_inv in H as [-> _]. cbn.
  set (s := Billing.sumTotals (filter Billing.validItem items)).
  pose proof (sumTotals_nonneg _ (filter_all Billing.validItem items)) as Hs.
  fold s in Hs.
  pose proof (roundCents_near (s * (8 # 100))) as [T1 T2].
  pose proof (roundCents_nonneg (s * (8 # 100))) as T0.
  pose proof (roundCents_cents (s * (8 # 100))) as Tc.
  set (t := Billing.roundCents (s * (8 # 100))) in *.
  assert (Ht : (0 <= t)%Q) by (apply T0; lra).
  pose proof (roundCents_near (s + t)) as [U1 U2].
  pose proof (roundCents_nonneg (s + t)) as U0.
  pose proof (roundCents_cents (s + t)) as Uc.
  repeat split; try assumption; try (apply U0; lra).
  intros [k Hk]. destruct Tc as [j Hj].
  apply (roundCents_whole (s + t) (k + j)).
  rewrite Hk, Hj. unfold Qeq, Qplus. simpl. lia.
Qed.

(** X18.  After a bill is created at time [now], the bills of a date range
    are the ones there were before, followed by the new bill exactly when
    [now] lies in the range, bounds included. *)
Theorem new_bill_in_date_range :
  forall (bills : list Billing.Bill) (freshId : JS.str) (now : Z)
         (items : list Billing.CartItem) (cashierId : JS.str)
         (bill : Billing.Bill) (bills' : list Billing.Bill)
         (startDate endDate : Z),
    Billing.createBill bills freshId now items cashierId
    = Billing.Done (bill, bills') ->
    Billing.getBillsByDateRange bills' startDate endDate
    = Billing.getBillsByDateRange bills startDate endDate
      ++ (if (startDate <=? now)%Z && (now <=? endDate)%Z
          then [bill] else []).
Proof.
  intros bills freshId now items cashierId bill bills' startDate endDate H.
  apply createBill_inv in H as [-> ->].
  unfold Billing.getBillsByDateRange. rewrite filter_app. cbn.
  destruct ((startDate <=? now)%Z && (now <=? endDate)%Z); reflexivity.
Qed.

Lemma createBill_keeps_valid_items_witness :
  exists bill bills',
    Billing.createBill [] (JS.js "BILL-1") 1000 cart (JS.js "2")
    = Billing.Done (bill, bills') /\
    bills' = [] ++ [bill] /\
    Billing.items bill = filter Billing.validItem cart.
Proof.
  destruct (Billing.createBill [] (JS.js "BILL-1") 1000 cart (JS.js "2"))
    as [[bill bills']|m] eqn:E; [|vm_compute in E; discriminate].
  exists bill, bills'. split; [reflexivity|].
  destruct (createBill_keeps_valid_items [] (JS.js "BILL-1") 1000 cart
              (JS.js "2") bill bills' E) as (H1 & H2 & _).
  split; assumption.
Defined.

Lemma createBill_amounts_witness :
  exists bill bills',
    Billing.createBill [] (JS.js "BILL-1") 1000 cart (JS.js "2")
    = Billing.Done (bill, bills') /\
    (0 <= Billing.tax bill)%Q /\ (0 <= Billing.total bill)%Q.
Proof.
  destruct (Billing.createBill [] (JS.js "BILL-1") 1000 cart (JS.js "2"))
    as [[bill bills']|m] eqn:E; [|vm_compute in E; discriminate].
  exists bill, bills'. split; [reflexivity|].
  destruct (createBill_amounts [] (JS.js "BILL-1") 1000 cart
              (JS.js "2") bill bills' E) as (_ & (H1 & _) & (H2 & _) & _).
  split; assumption.
Defined.

Lemma new_bill_in_date_range_witness :
  exists bill bills',
    Billing.createBill [] (JS.js "BILL-1") 1000 cart (JS.js "2")
    = Billing.Done (bill, bills') /\
    Billing.getBillsByDateRange bills' 0 2000 = [bill].
Proof.
  destruct (Billing.createBill [] (JS.js "BILL-1") 1000 cart (JS.js "2"))
    as [[bill bills']|m] eqn:E; [|vm_compute in E; discriminate].
  exists bill, bills'. split; [reflexivity|].
  exact (new_bill_in_date_range [] (JS.js "BILL-1") 1000 cart (JS.js "2")
           bill bills' 0 2000 E).
Defined.

(* ------------------------------------------------------------------ *)
(** ** Users and roles *)

(** X19.  [hasRole] follows the order cashier, manager, admin: a role is
    granted exactly when somebody is logged in whose own role is at least
    the role asked for. *)
Theorem hasRole_by_rank :
  forall (st : Auth.State) (r : Auth.Role),
    Auth.hasRole st r = true <->
    exists u, Auth.currentUser st = Some u /\
              (Auth.rank r <= Auth.rank (Auth.role u))%nat.
Proof.
  intros st r. unfold Auth.hasRole.
  destruct (Auth.currentUser st) as [u|].
  - destruct (Auth.role u) eqn:Eu, r; simpl; split;
      try discriminate; try reflexivity;
      try (intros _; exists u; rewrite Eu; simpl; split; [reflexivity|lia]);
      intros (u' & [= <-] & H); rewrite Eu in H; simpl in H; lia.
  - split; [discriminate | intros (u & H & _); discriminate].
Qed.

Lemma accounts_distinct (a b : Auth.Account) :
  In a Auth.MOCK_USERS -> In b Auth.MOCK_USERS ->
  Auth.username (Auth.user a) = Auth.username (Auth.user b) -> a = b.
Proof.
  unfold Auth.MOCK_USERS. simpl.
  intros [<- | [<- | [<- | [<- | []]]]] [<- | [<- | [<- | [<- | []]]]];
    intros H; try reflexivity; vm_compute in H; discriminate.
Qed.

Lemma login_found (st : Auth.State) (u pw : JS.str) (a : Auth.Account) :
  In a Auth.MOCK_USERS ->
  Auth.username (Auth.user a) = u -> Auth.password a = pw ->
  Auth.login st u pw
  = ({| Auth.success := true; Auth.loggedIn := Some (Auth.user a);
        Auth.error := None |},
     {| Auth.currentUser := Some (Auth.user a);
        Auth.session := Some (Auth.user a) |}).
Proof.
  intros Hin Hu Hp. unfold Auth.login.
  destruct (find _ Auth.MOCK_USERS) as [b|] eqn:E.
  - apply find_some in E as [Hb Hm].
    apply andb_true_iff in Hm as [Hm _]. apply eqb_eq in Hm.
    rewrite (accounts_distinct b a Hb Hin) by congruence. reflexivity.
  - pose proof (find_none _ _ E a Hin) as H. cbv beta in H.
    rewrite Hu, Hp, !eqb_refl in H. discriminate.
Qed.

Lemma login_not_found (st : Auth.State) (u pw : JS.str) :
  (forall a, In a Auth.MOCK_USERS ->
             ~ (Auth.username (Auth.user a) = u /\ Auth.password a = pw)) ->
  Auth.login st u pw
  = ({| Auth.success := false; Auth.loggedIn := None;
        Auth.error := Some "Invalid username or password"%string |}, st).
Proof.
  intros H. unfold Auth.login.
  destruct (find _ Auth.MOCK_USERS) as [b|] eqn:E; [|reflexivity].
  apply find_some in E as [Hb Hm]. apply andb_true_iff in Hm as [H1 H2].
  apply eqb_eq in H1, H2. exfalso. exact (H b Hb (conj H1 H2)).
Qed.

Lemma login_cases (st : Auth.State) (u pw : JS.str) :
  (exists a, In a Auth.MOCK_USERS /\
             Auth.username (Auth.user a) = u /\ Auth.password a = pw) \/
  (forall a, In a Auth.MOCK_USERS ->
             ~ (Auth.username (Auth.user a) = u /\ Auth.password a = pw)).
Proof.
  destruct (find (fun a => JS.eqb (Auth.username (Auth.user a)) u &&
                           JS.eqb (Auth.password a) pw) Auth.MOCK_USERS)
    as [b|] eqn:E.
  - left. apply find_some in E as [Hb Hm].
    apply andb_true_iff in Hm as [H1 H2]. apply eqb_eq in H1, H2.
    exists b. tauto.
  - right. intros a Ha [H1 H2].
    pose proof (find_none _ _ E a Ha) as H. cbv beta in H.
    rewrite H1, H2, !eqb_refl in H. discriminate.
Qed.

(** X20.  [login] succeeds exactly when the user name and the password are
    those of one account.  It then logs that account's user in and stores
    the session; otherwise it reports an error and changes nothing, so
    whoever was logged in stays logged in. *)
Theorem login_outcome :
  forall (st : Auth.State) (u pw : JS.str),
    let res := fst (Auth.login st u pw) in
    let st' := snd (Auth.login st u pw) in
    (Auth.success res = true <->
     exists a, In a Auth.MOCK_USERS /\
               Auth.username (Auth.user a) = u /\ Auth.password a = pw) /\
    (forall a, In a Auth.MOCK_USERS ->
               Auth.username (Auth.user a) = u -> Auth.password a = pw ->
               Auth.loggedIn res = Some (Auth.user a) /\
               Auth.currentUser st' = Some (Auth.user a) /\
               Auth.session st' = Some (Auth.user a)) /\
    (Auth.success res = false ->
     st' = st /\ Auth.loggedIn res = None /\ Auth.error res <> None).
Proof.
  intros st u pw. cbv zeta.
  destruct (login_cases st u pw) as [(a & Ha & Hu & Hp) | Hno].
  - rewrite (login_found st u pw a Ha Hu Hp). cbn.
    split; [split; [intros _; exists a; tauto | reflexivity]|].
    split; [|discriminate].
    intros b Hb Hbu Hbp.
    rewrite (accounts_distinct b a Hb Ha) by congruence. tauto.
  - rewrite (login_not_found st u pw Hno). cbn.
    split; [split; [discriminate | intros (a & Ha & H); destruct (Hno a Ha H)]|].
    split; [intros a Ha Hu Hp; destruct (Hno a Ha (conj Hu Hp))|].
    intros _. repeat split. discriminate.
Qed.

(** X21.  The stored session brings the user back: after a successful
    login a new instance of the service over the same storage has the same
    current user and grants the same roles; after a logout it has no user
    and grants no role. *)
Theorem session_survives_reload :
  forall (st : Auth.State) (u pw : JS.str),
    let st' := snd (Auth.login st u pw) in
    (Auth.success (fst (Auth.login st u pw)) = true ->
     Auth.currentUser (Auth.loadSession (reopened st'))
     = Auth.currentUser st' /\
     forall r, Auth.hasRole (Auth.loadSession (reopened st')) r
               = Auth.hasRole st' r) /\
    Auth.isAuthenticated
      (Auth.loadSession (reopened (Auth.logout st'))) = false /\
    forall r, Auth.hasRole (Auth.loadSession (reopened (Auth.logout st'))) r
              = false.
Proof.
  intros st u pw. cbv zeta. split; [|split; reflexivity].
  destruct (login_cases st u pw) as [(a & Ha & Hu & Hp) | Hno].
  - rewrite (login_found st u pw a Ha Hu Hp). cbn.
    intros _. split; reflexivity.
  - rewrite (login_not_found st u pw Hno). cbn. discriminate.
Qed.

Lemma hasRole_by_rank_witness :
  Auth.hasRole
    (snd (Auth.login {| Auth.currentUser := None; Auth.session := None |}
            (JS.js "manager") (JS.js "mgr123")))
    Auth.admin = false.
Proof.
  destruct (Auth.hasRole _ Auth.admin) eqn:E; [|reflexivity].
  apply (proj1 (hasRole_by_rank _ _)) in E as (u & Hu & Hr).
  vm_compute in Hu. injection Hu as <-. vm_compute in Hr. lia.
Defined.

Lemma login_outcome_witness :
  Auth.success
    (fst (Auth.login {| Auth.currentUser := None; Auth.session := None |}
            (JS.js "cashier1") (JS.js "cash123"))) = true.
Proof.
  apply (proj2 (proj1 (login_outcome
                         {| Auth.currentUser := None; Auth.session := None |}
                         (JS.js "cashier1") (JS.js "cash123")))).
  exists (Auth.account "2" "cashier1" "cash123" Auth.cashier "John Smith").
  split; [right; left; reflexivity | split; reflexivity].
Defined.

Lemma session_survives_reload_witness :
  Auth.currentUser
    (Auth.loadSession
       (reopened
          (snd (Auth.login
                  {| Auth.currentUser := None; Auth.session := None |}
                  (JS.js "admin") (JS.js "admin123")))))
  = Auth.currentUser
      (snd (Auth.login {| Auth.currentUser := None; Auth.session := None |}
              (JS.js "admin") (JS.js "admin123"))).
Proof.
  apply (proj1 (session_survives_reload
                  {| Auth.currentUser := None; Auth.session := None |}
                  (JS.js "admin") (JS.js "admin123"))).
  reflexivity.
Defined.

(* ------------------------------------------------------------------ *)
(** ** Payments *)




(** X23.  Whatever the method, a payment that succeeds reports the amount
    asked for as the amount paid, a transaction identifier and no error; a
    payment that fails reports no transaction identifier and no change, and
    for a method other than cash an amount paid of zero. *)
Theorem payment_result_invariants :
  forall (nowText : JS.str) (r1 r2 : Q) (request : Payment.PaymentRequest),
    let res := Payment.processPayment nowText r1 r2 request in
    (Payment.success res = true ->
     Payment.amountPaid res = Payment.amount request /\
     Payment.transactionId res <> None /\ Payment.error res = None) /\
    (Payment.success res = false ->
     Payment.transactionId res = None /\ Payment.change res = None /\
     (Payment.type (Payment.paymentMethod request) <> Payment.cash ->
      Payment.amountPaid res = 0%Q)) /\
    Payment.resultMethod res = Payment.paymentMethod request.
Proof.
  intros nowText r1 r2 request. cbv zeta. unfold Payment.processPayment.
  destruct (Payment.type (Payment.paymentMethod request)) eqn:Et.
  - destruct (Payment.cashReceived request) as [c|];
      [destruct (Payment.isZero c || JS.Qlt_bool c (Payment.amount request))|];
      cbn; repeat split; try discriminate; congruence.
  - destruct (JS.Qlt_bool (5 # 100) r1); cbn;
      repeat split; try discriminate; congruence.
  - destruct (JS.Qlt_bool (5 # 100) r1); cbn;
      repeat split; try discriminate; congruence.
  - destruct (JS.Qlt_bool (5 # 100) r1); cbn;
      repeat split; try discriminate; congruence.
Qed.


Lemma payment_result_invariants_witness :
  Payment.amountPaid
    (Payment.processPayment (JS.js "1700000000000") (1 # 2) (1 # 2)
       {| Payment.amount := 398 # 100; Payment.paymentMethod := cashMethod;
          Payment.cashReceived := Some 5%Q |}) = 398 # 100.
Proof.
  apply (proj1 (payment_result_invariants (JS.js "1700000000000") (1 # 2)
                  (1 # 2)
                  {| Payment.amount := 398 # 100;
                     Payment.paymentMethod := cashMethod;
                     Payment.cashReceived := Some 5%Q |})).
  reflexivity.
Defined.

(* ------------------------------------------------------------------ *)
(** ** The catalogue built from database rows *)

Lemma dropWhile_stop (f : N -> bool) (s : JS.str) :
  match s with c :: _ => f c = false | [] => True end ->
  JS.dropWhile f s = s.
Proof. destruct s as [|c s]; simpl; [reflexivity|]. intros ->. reflexivity. Qed.

Lemma trim_idem (s : JS.str) : JS.trim (JS.trim s) = JS.trim s.
Proof.
  destruct (trim_ends s) as [H1 H2].
  unfold JS.trim at 1.
  rewrite (dropWhile_stop _ _ H1), (dropWhile_stop _ _ H2).
  apply rev_involutive.
Qed.

Lemma trimmed_is_trimmed (o : option JS.str) (n : JS.str) :
  Fetch.trimmed o = Some n -> JS.trim n = n.
Proof.
  unfold Fetch.trimmed. destruct o as [x|]; [|discriminate].
  destruct (JS.truthy x); [|discriminate].
  intros [= <-]. apply trim_idem.
Qed.

Lemma orElse_not_empty (o : option JS.str) (d : JS.str) :
  d <> [] -> Fetch.orElse o d <> [].
Proof.
  intros Hd. unfold Fetch.orElse. destruct o as [x|]; [|exact Hd].
  destruct (JS.truthy x) eqn:E; [apply truthy_iff, E | exact Hd].
Qed.

Lemma orElse_present (o : option JS.str) (d : JS.str) :
  Fetch.present o = true -> Fetch.orElse o d <> [].
Proof.
  unfold Fetch.present, Fetch.orElse. destruct o as [x|]; [|discriminate].
  intros H. rewrite H. apply truthy_iff, H.
Qed.

Lemma orString_not_empty (o : option JS.str) (d : JS.str) :
  d <> [] -> orString o d <> [].
Proof.
  intros Hd. unfold orString. destruct o as [x|]; [|exact Hd].
  destruct (JS.truthy x) eqn:E; [apply truthy_iff, E | exact Hd].
Qed.

Lemma orElse_some (x d : JS.str) :
  Fetch.orElse (Some x) d = if JS.truthy x then x else d.
Proof. reflexivity. Qed.

Lemma name_en_of_row (categories : list CategoryRow.t) (lang : JS.str)
  (p : ProductRow.t) :
  name_en (Fetch.toProduct categories lang p) <> [] /\
  JS.trim (name_en (Fetch.toProduct categories lang p))
  = name_en (Fetch.toProduct categories lang p).
Proof.
  cbn [Fetch.toProduct name_en]. rewrite orElse_some.
  destruct (JS.truthy (JS.trim _)) eqn:E.
  - split; [apply truthy_iff, E | apply trim_idem].
  - split; [discriminate | reflexivity].
Qed.

(** X24.  A row that passes [validateProduct] becomes a product with a
    non-empty identifier, name and category, an English name that is
    non-empty and trimmed, a price that is not negative, and localized names
    and a barcode that are trimmed; in every language the name under which
    the product is displayed is non-empty. *)
Theorem valid_row_gives_well_formed_product :
  forall (categories : list CategoryRow.t) (currentLang : JS.str)
         (p : ProductRow.t),
    Fetch.validateProduct p = true ->
    let q := Fetch.toProduct categories currentLang p in
    (id q <> [] /\ name q <> [] /\ category q <> [] /\ (0 <= price q)%Q) /\
    (name_en q <> [] /\ JS.trim (name_en q) = name_en q) /\
    (forall n, In (Some n) [name_kn q; name_ml q; name_ta q; name_hi q;
                            barcode q] -> JS.trim n = n) /\
    (forall i18n language, getProductNameInLanguage i18n q language <> []).
Proof.
  intros categories currentLang p Hv. cbv zeta.
  unfold Fetch.validateProduct in Hv.
  apply andb_true_iff in Hv as [Hv Hstock].
  apply andb_true_iff in Hv as [Hv Hprice].
  apply andb_true_iff in Hv as [Hid Hname].
  pose proof (name_en_of_row categories currentLang p) as [Hen Htrim].
  split; [|split; [split; assumption|split]].
  - cbn [Fetch.toProduct id name category price].
    split; [apply orElse_present, Hid|].
    split; [apply orElse_not_empty, orElse_present, Hname|].
    split; [apply orElse_not_empty; discriminate|].
    destruct (ProductRow.price p) as [x|]; [|apply Qle_refl].
    destruct (JS.Qlt_bool 0 x) eqn:E; [|apply Qle_refl].
    apply Qlt_le_weak, Qlt_bool_iff, E.
  - cbn [Fetch.toProduct name_kn name_ml name_ta name_hi barcode].
    intros n [H | [H | [H | [H | [H | []]]]]];
      exact (trimmed_is_trimmed _ _ H).
  - intros i18n language. unfold getProductNameInLanguage.
    apply orString_not_empty, orString_not_empty.
    apply orElse_not_empty, orElse_present, Hname.
Qed.

Lemma valid_row_gives_well_formed_product_witness :
  name_en (Fetch.toProduct [] en
             {| ProductRow.id := Some (JS.js "p1");
                ProductRow.name_en := Some (JS.js "  Basmati Rice ");
                ProductRow.name_kn := None; ProductRow.name_ml := None;
                ProductRow.name_ta := None; ProductRow.name_hi := Some (JS.js "चावल");
                ProductRow.price := Some (12050 # 100); ProductRow.stock := Some 7%Z;
                ProductRow.barcode := None; ProductRow.description := None;
                ProductRow.category := None |}) <> [].
Proof.
  apply (proj1 (proj1 (proj2 (valid_row_gives_well_formed_product [] en
           {| ProductRow.id := Some (JS.js "p1");
              ProductRow.name_en := Some (JS.js "  Basmati Rice ");
              ProductRow.name_kn := None; ProductRow.name_ml := None;
              ProductRow.name_ta := None; ProductRow.name_hi := Some (JS.js "चावल");
              ProductRow.price := Some (12050 # 100); ProductRow.stock := Some 7%Z;
              ProductRow.barcode := None; ProductRow.description := None;
              ProductRow.category := None |} eq_refl)))).
Defined.

(** X25.  [fetchAllProducts] never returns an empty list and never empties
    the catalogue of the service; when the query fails or gives no row, a
    non-empty catalogue is returned as it is and left unchanged. *)
Theorem fetch_keeps_catalogue_non_empty :
  forall (products : list Product) (i18n : option JS.str)
         (categories : list CategoryRow.t) (rows : option (list ProductRow.t)),
    let returned := fst (Fetch.fetchAllProducts products i18n categories
                           rows) in
    let after := snd (Fetch.fetchAllProducts products i18n categories
                        rows) in
    returned <> [] /\
    (products <> [] -> after <> []) /\
    (products <> [] -> rows = None \/ rows = Some [] ->
     returned = products /\ after = products).
Proof.
  intros products i18n categories rows. cbv zeta.
  assert (Hmock : MOCK_PRODUCTS <> []) by discriminate.
  unfold Fetch.fetchAllProducts.
  destruct rows as [[|r data]|].
  - destruct products as [|p0 ps]; cbn.
    + split; [exact Hmock|]. split; intros C; congruence.
    + split; [discriminate|]. split; [intros _; discriminate|].
      intros _ _. split; reflexivity.
  - destruct (List.length (map _ (filter _ (r :: data))) =? 0)%nat eqn:E;
      cbn [fst snd].
    + split; [exact Hmock|]. split; [intros _; exact Hmock|].
      intros _ [C | C]; discriminate.
    + apply Nat.eqb_neq in E.
      assert (Hm : map (Fetch.toProduct categories
                          (JS.beforeDash (orString i18n (JS.js "en"))))
                       (filter Fetch.validateProduct (r :: data)) <> [])
        by (intros C; rewrite C in E; apply E; reflexivity).
      split; [exact Hm|]. split; [intros _; exact Hm|].
      intros _ [C | C]; discriminate.
  - destruct products as [|p0 ps]; cbn.
    + split; [exact Hmock|]. split; intros C; congruence.
    + split; [discriminate|]. split; [intros _; discriminate|].
      intros _ _. split; reflexivity.
Qed.

Lemma fetch_keeps_catalogue_non_empty_witness :
  fst (Fetch.fetchAllProducts MOCK_PRODUCTS None [] None) = MOCK_PRODUCTS.
Proof.
  apply (proj2 (proj2 (fetch_keeps_catalogue_non_empty MOCK_PRODUCTS None []
                         None))).
  - discriminate.
  - left. reflexivity.
Defined.
